(** * MicroManager: the CNU statistics log parser (parser.py)

    A shallow embedding of [parse_cnu_line], of the two regular expressions
    it relies on, and of the report loop of [main].

    Text is a list of 8-bit characters read as the code points 0..255; the
    character classes [\d], [\s], [\w] and [.] are the ones Python's [re]
    uses for [str] patterns, restricted to that range (lines with code
    points above 255 are outside the model).  Captured values stay text
    everywhere, as in the source.  [main] is modelled on the list of lines
    that iterating over the input file yields, and gives the list of the
    texts passed to [out_f.write], in order. *)

From Stdlib Require Import List Bool Arith Lia NArith Ascii String.
Import ListNotations.
Local Open Scope list_scope.

(* ================================================================== *)
(** * Part I: definitions *)

(** ** Text and character classes *)

Definition str := list ascii.

(** [L "abc"] is the text of a string literal. *)
Definition L (s : string) : str := list_ascii_of_string s.

Definition code (c : ascii) : N := N_of_ascii c.

Definition between (lo hi : N) (c : ascii) : bool :=
  ((lo <=? code c) && (code c <=? hi))%N.

Definition code_is (n : N) (c : ascii) : bool := (code c =? n)%N.

Definition nl : ascii := ascii_of_N 10.

(** [\d]: the decimal digits. *)
Definition digit (c : ascii) : bool := between 48 57 c.

(** [\s], and the characters [str.strip()] removes. *)
Definition space (c : ascii) : bool :=
  between 9 13 c || between 28 32 c || code_is 133 c || code_is 160 c.

(** [\w]: alphanumeric characters and the underscore. *)
Definition word (c : ascii) : bool :=
  between 48 57 c || between 65 90 c || code_is 95 c || between 97 122 c
  || code_is 170 c || between 178 179 c || code_is 181 c || between 185 186 c
  || between 188 190 c || between 192 214 c || between 216 246 c
  || between 248 255 c.

(** [.] without DOTALL: anything but a newline. *)
Definition dot (c : ascii) : bool := negb (code_is 10 c).

(** [[\d\.]] *)
Definition digit_or_dot (c : ascii) : bool := digit c || code_is 46 c.

(** [[^\s:]] *)
Definition not_space_colon (c : ascii) : bool := negb (space c || code_is 58 c).

(** [[^>]] *)
Definition not_gt (c : ascii) : bool := negb (code_is 62 c).

Fixpoint dropwhile (f : ascii -> bool) (s : str) : str :=
  match s with
  | c :: s' => if f c then dropwhile f s' else s
  | [] => []
  end.

Definition lstrip (s : str) : str := dropwhile space s.

Definition rstrip (s : str) : str := rev (dropwhile space (rev s)).

(** [s.strip()] *)
Definition strip (s : str) : str := lstrip (rstrip s).

(** [s.rstrip("\n")] *)
Definition rstrip_newline (s : str) : str := rev (dropwhile (code_is 10) (rev s)).

(** ** Regular expressions

    Both patterns of the source are sequences of literal characters,
    repetitions of one character class, an optional character, capture
    groups that do not nest, and a final [$].  A pattern is a list of such
    items, matched by backtracking in the priority order of [re]: a greedy
    repetition tries the longest run first, a lazy one the shortest, and an
    optional character is tried present before absent. *)

Inductive item : Type :=
| Chr (c : ascii)                                   (* a literal character *)
| Rep (greedy atleast1 : bool) (cls : ascii -> bool) (* cls* cls+ cls*? cls+? *)
| Opt (c : ascii)                                   (* c? *)
| GOpen                                             (* ( *)
| GClose                                            (* ) *)
| Eos.                                              (* $ *)

Definition pattern := list item.

(** Capture state: the groups already closed, most recent first, and the
    text of the group being captured, if one is open. *)
Record caps : Type := Caps { closed : list str; opened : option str }.

Definition caps0 : caps := Caps [] None.

Definition push (c : ascii) (st : caps) : caps :=
  match opened st with
  | Some t => Caps (closed st) (Some (t ++ [c]))
  | None => st
  end.

Definition pushs (w : str) (st : caps) : caps :=
  match opened st with
  | Some t => Caps (closed st) (Some (t ++ w))
  | None => st
  end.

Definition gopen (st : caps) : caps := Caps (closed st) (Some []).

Definition gclose (st : caps) : caps :=
  match opened st with
  | Some t => Caps (t :: closed st) None
  | None => Caps ([] :: closed st) None
  end.

Section Repetition.
Variable R : Type.
Variable cls : ascii -> bool.
Variable k : caps -> str -> option R.

(** [cls*] followed by [k]: the longest run first. *)
Fixpoint greedy (st : caps) (s : str) : option R :=
  match s with
  | c :: s' =>
      if cls c then
        match greedy (push c st) s' with
        | Some r => Some r
        | None => k st s
        end
      else k st s
  | [] => k st s
  end.

(** [cls*?] followed by [k]: the shortest run first. *)
Fixpoint lazy (st : caps) (s : str) : option R :=
  match k st s with
  | Some r => Some r
  | None =>
      match s with
      | c :: s' => if cls c then lazy (push c st) s' else None
      | [] => None
      end
  end.

Definition rep (g atleast1 : bool) (st : caps) (s : str) : option R :=
  let star := if g then greedy else lazy in
  if atleast1 then
    match s with
    | c :: s' => if cls c then star (push c st) s' else None
    | [] => None
    end
  else star st s.
End Repetition.

Arguments greedy {R} cls k st s.

Arguments lazy {R} cls k st s.

Arguments rep {R} cls k g atleast1 st s : simpl never.

(** [run p st s] matches [p] at the start of [s]; on success it gives the
    capture state and the text left after the match. *)
Fixpoint run (p : pattern) (st : caps) (s : str) : option (caps * str) :=
  match p with
  | [] => Some (st, s)
  | Chr c :: p' =>
      match s with
      | x :: s' => if Ascii.eqb x c then run p' (push x st) s' else None
      | [] => None
      end
  | Rep g m cls :: p' => rep cls (run p') g m st s
  | Opt c :: p' =>
      match s with
      | x :: s' =>
          if Ascii.eqb x c then
            match run p' (push x st) s' with
            | Some r => Some r
            | None => run p' st s
            end
          else run p' st s
      | [] => run p' st s
      end
  | GOpen :: p' => run p' (gopen st) s
  | GClose :: p' => run p' (gclose st) s
  | Eos :: p' =>
      match s with
      | [] => run p' st s
      | [c] => if code_is 10 c then run p' st s else None
      | _ => None
      end
  end.

(** [p.match(s)]: the groups in pattern order, and the text after the
    match. *)
Definition re_match (p : pattern) (s : str) : option (list str * str) :=
  match run p caps0 s with
  | Some (st, rest) => Some (rev (closed st), rest)
  | None => None
  end.

(** [m.group(i)], for [i >= 1]. *)
Definition group (i : nat) (gs : list str) : str := nth (i - 1) gs [].

(** [p.findall(s)]: the groups of the successive non-overlapping matches,
    scanning left to right.  [skip] counts the characters of the current
    match that are still to be stepped over. *)
Fixpoint findall_from (p : pattern) (skip : nat) (s : str) : list (list str) :=
  match skip with
  | S n =>
      match s with
      | _ :: s' => findall_from p n s'
      | [] => []
      end
  | O =>
      match re_match p s with
      | Some (gs, rest) =>
          gs :: match s with
                | _ :: s' => findall_from p (List.length s - List.length rest - 1) s'
                | [] => []
                end
      | None =>
          match s with
          | _ :: s' => findall_from p 0 s'
          | [] => []
          end
      end
  end.

Definition findall (p : pattern) (s : str) : list (list str) :=
  findall_from p 0 s.

(** Pattern building blocks. *)
Definition lit (s : string) : pattern := map Chr (L s).

Definition star (cls : ascii -> bool) : pattern := [Rep true false cls].

Definition plus (cls : ascii -> bool) : pattern := [Rep true true cls].

Definition star_lazy (cls : ascii -> bool) : pattern := [Rep false false cls].

Definition grp (p : pattern) : pattern := GOpen :: p ++ [GClose].

(** [line_regex] *)
Definition line_regex : pattern :=
  star space                                       (* ^\s*           *)
  ++ grp (plus digit) ++ lit ":"                   (* (\d+):         *)
  ++ grp (plus digit_or_dot) ++ lit ":"            (* ([\d\.]+):     *)
  ++ grp (plus word) ++ lit ":"                    (* (\w+):         *)
  ++ grp (plus word) ++ lit ":"                    (* (\w+):         *)
  ++ star space ++ grp (plus not_space_colon)      (* \s*([^\s:]+)   *)
  ++ star space ++ lit ":" ++ star space           (* \s*:\s*        *)
  ++ grp (plus digit) ++ lit ":" ++ star space     (* (\d+):\s*      *)
  ++ lit "<" ++ grp (plus digit) ++ lit ":"        (* <(\d+):        *)
  ++ grp (plus not_gt) ++ lit ">,<"                (* ([^>]+)>,<     *)
  ++ grp (plus digit) ++ lit ","                   (* (\d+),         *)
  ++ grp (plus not_gt) ++ lit ">,<"                (* ([^>]+)>,<     *)
  ++ grp (plus digit) ++ lit ">" ++ star space     (* (\d+)>\s*      *)
  ++ lit "<Rx Good/Bad,Percent" ++ plus space      (* <Rx Good/Bad,Percent\s+ *)
  ++ grp (plus digit) ++ lit "/" ++ plus space     (* (\d+)\/\s+     *)
  ++ grp (plus digit) ++ lit "," ++ plus space     (* (\d+),\s+      *)
  ++ grp (plus digit_or_dot) ++ lit "%>"           (* ([\d\.]+)%>    *)
  ++ star_lazy dot ++ lit "per channel"            (* .*?per channel *)
  ++ star space ++ grp (star dot) ++ [Eos].        (* \s*, group .*, $ *)

(** [channel_regex] *)
Definition channel_regex : pattern :=
  lit "<" ++ grp (plus digit) ++ lit ":" ++ star space  (* <(\d+):\s* *)
  ++ grp (plus digit) ++ lit "/"                        (* (\d+)\/    *)
  ++ grp (Opt "-"%char :: plus digit) ++ lit "/"             (* (-?\d+)\/  *)
  ++ grp (plus digit) ++ lit "/"                        (* (\d+)\/    *)
  ++ grp (plus digit) ++ lit ","                        (* (\d+),     *)
  ++ grp (plus digit) ++ lit "/"                        (* (\d+)\/    *)
  ++ grp (plus digit) ++ lit ">".                       (* (\d+)>     *)

(** ** The parsed record and [parse_cnu_line] *)

Record ChannelStat : Type := mkChannel {
  bandIndex : str;
  rxBitsPerSym : str;
  rxPower : str;
  rxSnr : str;
  rxPhyRate : str;
  txBitsPerSym : str;
  txPhyRate : str
}.

Record ParsedRecord : Type := mkRecord {
  timestamp : str;
  trace_level : str;
  module : str;
  function : str;
  source_line : str;
  moca_port : str;
  moca_port_dev : str;
  cnu_id : str;
  cnu_mac : str;
  source_type : str;
  rx_good : str;
  rx_bad : str;
  rx_bad_percent : str;
  channels : list ChannelStat
}.

(** One tuple of [findall] turned into the channel dictionary. *)
Definition channel_of (t : list str) : ChannelStat :=
  mkChannel (group 1 t) (group 2 t) (group 3 t) (group 4 t)
            (group 5 t) (group 6 t) (group 7 t).

(** The dictionary built from the groups of a header match. *)
Definition record_of (gs : list str) : ParsedRecord :=
  mkRecord (group 2 gs) (group 3 gs) (group 4 gs) (group 5 gs) (group 6 gs)
           (group 7 gs) (strip (group 8 gs)) (group 9 gs)
           (strip (group 10 gs)) (group 11 gs)
           (group 12 gs) (group 13 gs) (group 14 gs)
           (map channel_of (findall channel_regex (group 15 gs))).

(** [parse_cnu_line] *)
Definition parse_cnu_line (line : str) : option ParsedRecord :=
  match re_match line_regex line with
  | None => None
  | Some (gs, _) => Some (record_of gs)
  end.

(** ** The report and the loop of [main] *)

Definition divider : str := L "---------------------------------------------------".

Definition newline : str := [nl].

Definition render_channel (ch : ChannelStat) : str :=
  L "  BandIndex: " ++ bandIndex ch ++ L " | "
  ++ L "RX bits/sym: " ++ rxBitsPerSym ch ++ L " | "
  ++ L "Power: " ++ rxPower ch ++ L " dBm? | "
  ++ L "SNR: " ++ rxSnr ch ++ L " dB | "
  ++ L "RX PHY: " ++ rxPhyRate ch ++ L " Mbps | "
  ++ L "TX bits/sym: " ++ txBitsPerSym ch ++ L " | "
  ++ L "TX PHY: " ++ txPhyRate ch ++ L " Mbps" ++ newline.

Definition source_str (r : ParsedRecord) : str :=
  if list_eq_dec ascii_dec (source_type r) (L "0") then L "Micronode" else L "CNU".

(** The chunks written before the channel lines of a matched record. *)
Definition render_head (r : ParsedRecord) : list str :=
  [ divider ++ newline;
    L "Timestamp:  " ++ timestamp r ++ newline;
    L "Level:      " ++ trace_level r ++ newline;
    L "Module:     " ++ module r ++ newline;
    L "Function:   " ++ function r ++ newline;
    L "Line:       " ++ source_line r ++ newline;
    L "MoCA Port:  " ++ moca_port r ++ L " (" ++ moca_port_dev r ++ L ")" ++ newline;
    L "CNU ID:     " ++ cnu_id r ++ newline;
    L "CNU MAC:    " ++ cnu_mac r ++ newline;
    L "Source:     " ++ source_str r ++ newline;
    L "Rx Good:    " ++ rx_good r ++ newline;
    L "Rx Bad:     " ++ rx_bad r ++ newline;
    L "Rx % Bad:   " ++ rx_bad_percent r ++ newline;
    L "Channel Stats:" ++ newline ].

(** All the chunks written for one matched record. *)
Definition render (r : ParsedRecord) : list str :=
  render_head r ++ map render_channel (channels r) ++ [divider ++ newline].

Definition debug_header : str :=
  newline ++ L "=== DEBUG MODE: NO MATCH LINES ===" ++ newline.

Definition render_no_match (nm : str) : str := L "NO MATCH: " ++ nm ++ newline.

(** State of the loop of [main]: what has been written to [out_f], and the
    list [no_match_lines]. *)
Record loop_state : Type := mkLoop { written : list str; no_match_lines : list str }.

(** One iteration of [for line in f]. *)
Definition step (st : loop_state) (raw : str) : loop_state :=
  let line := rstrip_newline raw in
  match parse_cnu_line line with
  | None => mkLoop (written st) (no_match_lines st ++ [line])
  | Some parsed => mkLoop (written st ++ render parsed) (no_match_lines st)
  end.

(** [main], on the lines the input file yields: the chunks written. *)
Definition main (debug : bool) (lines : list str) : list str :=
  let st := fold_left step lines (mkLoop [] []) in
  match debug, no_match_lines st with
  | true, _ :: _ =>
      written st ++ debug_header :: map render_no_match (no_match_lines st)
  | _, _ => written st
  end.

(** The output text. *)
Definition output (debug : bool) (lines : list str) : str :=
  List.concat (main debug lines).

(** ** Vocabulary of the statements

    Lines and channel segments assembled from the text of each slot of the
    two grammars, and the conditions under which the slots conform. *)

Definition disjoint (f g : ascii -> bool) : Prop :=
  forall c, f c = true -> g c = false.

(** A token of a class: a non-empty run of its characters. *)
Definition tok (cls : ascii -> bool) (w : str) : bool :=
  match w with
  | [] => false
  | _ => forallb cls w
  end.

(** Does the text start with a character of the class? *)
Definition starts (cls : ascii -> bool) (s : str) : bool :=
  match s with
  | c :: _ => cls c
  | [] => false
  end.

(** [blocks cls p]: [p] refuses any text starting with a character of
    [cls]. *)
Definition blocks (cls : ascii -> bool) (p : pattern) : Prop :=
  forall st c s, cls c = true -> run p st (c :: s) = None.

Record Header : Type := mkHeader {
  h_lead : str;          (* whitespace before the identifier *)
  h_ident : str;
  h_timestamp : str;
  h_level : str;
  h_module : str;
  h_sp_fn_l : str;       (* whitespace before the function name *)
  h_function : str;
  h_sp_fn_r : str;       (* whitespace after the function name *)
  h_sp_line : str;       (* whitespace before the source line number *)
  h_source_line : str;
  h_sp_port : str;       (* whitespace before the port group *)
  h_port : str;
  h_dev : str;
  h_cnu_id : str;
  h_mac : str;
  h_source_type : str;
  h_sp_rx : str;         (* whitespace before the Rx tag *)
  h_sp_good : str;       (* whitespace after "Percent" *)
  h_good : str;
  h_sp_bad : str;        (* whitespace after "/" *)
  h_bad : str;
  h_sp_pct : str;        (* whitespace after "," *)
  h_pct : str;
  h_junk : str           (* text between the Rx tag and "per channel" *)
}.

(** The line made of [h] and of the channel segment [seg]; [colon i] is the
    text standing where the [i]-th colon of the header belongs. *)
Definition line_with (colon : nat -> str) (h : Header) (seg : str) : str :=
  h_lead h ++ h_ident h ++ colon 0 ++ h_timestamp h ++ colon 1
  ++ h_level h ++ colon 2 ++ h_module h ++ colon 3
  ++ h_sp_fn_l h ++ h_function h ++ h_sp_fn_r h ++ colon 4
  ++ h_sp_line h ++ h_source_line h ++ colon 5 ++ h_sp_port h
  ++ L "<" ++ h_port h ++ L ":" ++ h_dev h ++ L ">,<"
  ++ h_cnu_id h ++ L "," ++ h_mac h ++ L ">,<" ++ h_source_type h ++ L ">"
  ++ h_sp_rx h ++ L "<Rx Good/Bad,Percent" ++ h_sp_good h
  ++ h_good h ++ L "/" ++ h_sp_bad h ++ h_bad h ++ L "," ++ h_sp_pct h
  ++ h_pct h ++ L "%>" ++ h_junk h ++ L "per channel" ++ seg.

Definition line_of (h : Header) (seg : str) : str :=
  line_with (fun _ => L ":") h seg.

(** Every slot up to the Rx percentage holds text of its class.  The two
    whitespace runs inside the Rx tag are only required to be whitespace
    here; [rx_spaced] says that they are not empty. *)
Definition fields_ok (h : Header) : bool :=
  forallb space (h_lead h) && tok digit (h_ident h)
  && tok digit_or_dot (h_timestamp h) && tok word (h_level h)
  && tok word (h_module h) && forallb space (h_sp_fn_l h)
  && tok not_space_colon (h_function h) && forallb space (h_sp_fn_r h)
  && forallb space (h_sp_line h) && tok digit (h_source_line h)
  && forallb space (h_sp_port h) && tok digit (h_port h)
  && tok not_gt (h_dev h) && tok digit (h_cnu_id h) && tok not_gt (h_mac h)
  && tok digit (h_source_type h) && forallb space (h_sp_rx h)
  && tok space (h_sp_good h) && tok digit (h_good h)
  && forallb space (h_sp_bad h) && tok digit (h_bad h)
  && forallb space (h_sp_pct h) && tok digit_or_dot (h_pct h).

Definition rx_spaced (h : Header) : bool :=
  negb (Nat.eqb (List.length (h_sp_bad h)) 0)
  && negb (Nat.eqb (List.length (h_sp_pct h)) 0).

(** The groups 1 to 14 of a header, most recent first. *)
Definition header_groups (h : Header) : list str :=
  [ h_pct h; h_bad h; h_good h; h_source_type h; h_mac h; h_cnu_id h;
    h_dev h; h_port h; h_source_line h; h_function h; h_module h;
    h_level h; h_timestamp h; h_ident h ].

(** What is left of [line_regex] after the Rx tag. *)
Definition tail_regex : pattern :=
  star_lazy dot ++ lit "per channel" ++ star space ++ grp (star dot) ++ [Eos].

Fixpoint prefixb (m s : str) : bool :=
  match m, s with
  | [], _ => true
  | a :: m', b :: s' => Ascii.eqb a b && prefixb m' s'
  | _ :: _, [] => false
  end.

Definition marker : str := L "per channel".

(** In [junk ++ m] the text [m] occurs at the end only. *)
Fixpoint marker_first (m junk : str) : bool :=
  match junk with
  | [] => true
  | _ :: j => negb (prefixb m (junk ++ m)) && marker_first m j
  end.

Fixpoint takewhile (f : ascii -> bool) (s : str) : str :=
  match s with
  | c :: s' => if f c then c :: takewhile f s' else []
  | [] => []
  end.

(** A line is well formed when its header slots hold text of their
    classes, the Rx tag has its whitespace, the text before the marker has
    no newline and no earlier occurrence of the marker, and the channel
    segment has no newline. *)
Definition line_ok (h : Header) (seg : str) : bool :=
  fields_ok h && rx_spaced h && forallb dot (h_junk h)
  && marker_first marker (h_junk h) && forallb dot seg.

(** The header part of the record parsed from a line built from [h]. *)
Definition header_record (h : Header) (chs : list ChannelStat) : ParsedRecord :=
  mkRecord (h_timestamp h) (h_level h) (h_module h) (h_function h)
           (h_source_line h) (h_port h) (strip (h_dev h)) (h_cnu_id h)
           (strip (h_mac h)) (h_source_type h) (h_good h) (h_bad h) (h_pct h)
           chs.

Record Chan : Type := mkChan {
  c_before : str;        (* text before the group, free of "<" *)
  c_band : str;
  c_sp : str;            (* whitespace after the colon *)
  c_rxbits : str;
  c_power : str;
  c_snr : str;
  c_rxphy : str;
  c_txbits : str;
  c_txphy : str
}.

Definition group_text (c : Chan) : str :=
  L "<" ++ c_band c ++ L ":" ++ c_sp c ++ c_rxbits c ++ L "/"
  ++ c_power c ++ L "/" ++ c_snr c ++ L "/" ++ c_rxphy c ++ L ","
  ++ c_txbits c ++ L "/" ++ c_txphy c ++ L ">".

(** [[^<]] *)
Definition not_lt (c : ascii) : bool := negb (code_is 60 c).

(** An integer with an optional minus sign. *)
Definition signed (p : str) : bool :=
  match p with
  | c :: d => if Ascii.eqb c "-" then tok digit d else tok digit p
  | [] => false
  end.

Definition chan_ok (c : Chan) : bool :=
  forallb not_lt (c_before c)
  && tok digit (c_band c) && forallb space (c_sp c)
  && tok digit (c_rxbits c) && signed (c_power c) && tok digit (c_snr c)
  && tok digit (c_rxphy c) && tok digit (c_txbits c) && tok digit (c_txphy c).

(** The channel segment holding the groups [cs], followed by [rest]. *)
Definition segment (cs : list Chan) (rest : str) : str :=
  fold_right (fun c s => c_before c ++ group_text c ++ s) rest cs.

Definition segment_ok (cs : list Chan) (rest : str) : bool :=
  forallb chan_ok cs && forallb not_lt rest.

(** The channel dictionary expected for [c]. *)
Definition chan_stat (c : Chan) : ChannelStat :=
  mkChannel (c_band c) (c_rxbits c) (c_power c) (c_snr c) (c_rxphy c)
            (c_txbits c) (c_txphy c).

(** [consumes p s s']: [s] is some text of the shape [p] followed by
    [s']. *)
Fixpoint consumes (p : pattern) (s s' : str) : Prop :=
  match p with
  | [] => s = s'
  | Chr c :: p' => exists t, s = c :: t /\ consumes p' t s'
  | Rep _ m cls :: p' =>
      exists w t, s = w ++ t
                  /\ (if m then tok cls w else forallb cls w) = true
                  /\ consumes p' t s'
  | Opt c :: p' => consumes p' s s' \/ exists t, s = c :: t /\ consumes p' t s'
  | GOpen :: p' => consumes p' s s'
  | GClose :: p' => consumes p' s s'
  | Eos :: p' => (s = [] \/ s = [nl]) /\ consumes p' s s'
  end.

(** [[^:]] *)
Definition not_colon (c : ascii) : bool := negb (code_is 58 c).

Definition space_or_digit (c : ascii) : bool := space c || digit c.

(** The text after the first [n] colons. *)
Fixpoint after_colons (n : nat) (s : str) : str :=
  match n with
  | O => s
  | S n' =>
      match dropwhile not_colon s with
      | _ :: s' => after_colons n' s'
      | [] => []
      end
  end.

(** The text between the [n]-th colon and the next one. *)
Definition colon_field (n : nat) (s : str) : str :=
  takewhile not_colon (after_colons n s).

(** [line_with (without k)] is the line whose [k]-th colon is deleted. *)
Definition without (k j : nat) : str := if Nat.eqb j k then [] else L ":".

(** The part of [line_regex] that ends with the sixth colon. *)
Definition head_regex : pattern :=
  star space ++ grp (plus digit) ++ lit ":"
  ++ grp (plus digit_or_dot) ++ lit ":"
  ++ grp (plus word) ++ lit ":" ++ grp (plus word) ++ lit ":"
  ++ star space ++ grp (plus not_space_colon) ++ star space ++ lit ":"
  ++ star space ++ grp (plus digit) ++ lit ":".

(** ** The report described from the input lines *)

(** The records of the lines that parse, in input order. *)
Definition matched (lines : list str) : list ParsedRecord :=
  flat_map (fun raw => match parse_cnu_line (rstrip_newline raw) with
                       | Some r => [r]
                       | None => []
                       end) lines.

Definition unparsed (line : str) : bool :=
  match parse_cnu_line line with
  | Some _ => false
  | None => true
  end.

(** The lines that do not parse, in input order. *)
Definition rejected (lines : list str) : list str :=
  filter unparsed (map rstrip_newline lines).

Definition debug_section (debug : bool) (nm : list str) : list str :=
  match debug, nm with
  | true, _ :: _ => debug_header :: map render_no_match nm
  | _, _ => []
  end.

Definition no_match_prefix : str := L "NO MATCH: ".

Fixpoint no_channel_group (s : str) : bool :=
  match re_match channel_regex s with
  | Some _ => false
  | None =>
      match s with
      | [] => true
      | _ :: s' => no_channel_group s'
      end
  end.

(** ** The example of the specification and its variants *)

Definition example_line_spec : str :=
  L "12:1699999999.123:INFO:moca:handleCnuStats:45: <2:eth0>,<7:AA:BB:CC:DD:EE:FF>,<1> <Rx Good/Bad,Percent 100/ 2, 1.96%> blah per channel <0:4/-3/30/100,4/200><1:5/2/28/90,3/180>".

Definition example_line : str :=
  L "12:1699999999.123:INFO:moca:handleCnuStats:45: <2:eth0>,<7,AA:BB:CC:DD:EE:FF>,<1> <Rx Good/Bad,Percent 100/ 2, 1.96%> blah per channel <0:4/-3/30/100,4/200><1:5/2/28/90,3/180>".

Definition example_header : Header :=
  mkHeader [] (L "12") (L "1699999999.123") (L "INFO") (L "moca")
           [] (L "handleCnuStats") [] [] (L "45") (L " ")
           (L "2") (L "eth0") (L "7") (L "AA:BB:CC:DD:EE:FF") (L "1")
           (L " ") (L " ") (L "100") (L " ") (L "2") (L " ") (L "1.96")
           (L " blah ").

Definition example_channels : list Chan :=
  [ mkChan (L " ") (L "0") [] (L "4") (L "-3") (L "30") (L "100") (L "4") (L "200");
    mkChan [] (L "1") [] (L "5") (L "2") (L "28") (L "90") (L "3") (L "180") ].

Definition example_block : list str :=
  [ L "---------------------------------------------------" ++ newline;
    L "Timestamp:  1699999999.123" ++ newline;
    L "Level:      INFO" ++ newline;
    L "Module:     moca" ++ newline;
    L "Function:   handleCnuStats" ++ newline;
    L "Line:       45" ++ newline;
    L "MoCA Port:  2 (eth0)" ++ newline;
    L "CNU ID:     7" ++ newline;
    L "CNU MAC:    AA:BB:CC:DD:EE:FF" ++ newline;
    L "Source:     CNU" ++ newline;
    L "Rx Good:    100" ++ newline;
    L "Rx Bad:     2" ++ newline;
    L "Rx % Bad:   1.96" ++ newline;
    L "Channel Stats:" ++ newline;
    L "  BandIndex: 0 | RX bits/sym: 4 | Power: -3 dBm? | SNR: 30 dB | RX PHY: 100 Mbps | TX bits/sym: 4 | TX PHY: 200 Mbps" ++ newline;
    L "  BandIndex: 1 | RX bits/sym: 5 | Power: 2 dBm? | SNR: 28 dB | RX PHY: 90 Mbps | TX bits/sym: 3 | TX PHY: 180 Mbps" ++ newline;
    L "---------------------------------------------------" ++ newline ].

Definition set_dev (d : str) (h : Header) : Header :=
  mkHeader (h_lead h) (h_ident h) (h_timestamp h) (h_level h) (h_module h)
           (h_sp_fn_l h) (h_function h) (h_sp_fn_r h) (h_sp_line h)
           (h_source_line h) (h_sp_port h) (h_port h) d (h_cnu_id h)
           (h_mac h) (h_source_type h) (h_sp_rx h) (h_sp_good h) (h_good h)
           (h_sp_bad h) (h_bad h) (h_sp_pct h) (h_pct h) (h_junk h).

Definition set_rx_spaces (a b : str) (h : Header) : Header :=
  mkHeader (h_lead h) (h_ident h) (h_timestamp h) (h_level h) (h_module h)
           (h_sp_fn_l h) (h_function h) (h_sp_fn_r h) (h_sp_line h)
           (h_source_line h) (h_sp_port h) (h_port h) (h_dev h) (h_cnu_id h)
           (h_mac h) (h_source_type h) (h_sp_rx h) (h_sp_good h) (h_good h)
           a (h_bad h) b (h_pct h) (h_junk h).

Definition set_numeric (ts pct : str) (h : Header) : Header :=
  mkHeader (h_lead h) (h_ident h) ts (h_level h) (h_module h)
           (h_sp_fn_l h) (h_function h) (h_sp_fn_r h) (h_sp_line h)
           (h_source_line h) (h_sp_port h) (h_port h) (h_dev h) (h_cnu_id h)
           (h_mac h) (h_source_type h) (h_sp_rx h) (h_sp_good h) (h_good h)
           (h_sp_bad h) (h_bad h) (h_sp_pct h) pct (h_junk h).

Definition negative_channel : Chan :=
  mkChan [] (L "0") [] (L "4") (L "-5") (L "30") (L "100") (L "4") (L "200").

(** The text with its [n]-th character removed. *)
Definition delete_at (n : nat) (s : str) : str := firstn n s ++ skipn (S n) s.

Definition example_marker_twice : str :=
  L "12:1699999999.123:INFO:moca:handleCnuStats:45: <2:eth0>,<7,AA:BB:CC:DD:EE:FF>,<1> <Rx Good/Bad,Percent 100/ 2, 1.96%> per channel per channel <0:4/-3/30/100,4/200>".

Definition example_no_channels : str :=
  L "12:1699999999.123:INFO:moca:handleCnuStats:45: <2:eth0>,<7,AA:BB:CC:DD:EE:FF>,<1> <Rx Good/Bad,Percent 100/ 2, 1.96%> blah per channel".

(** ** Further vocabulary: groups counted, malformed groups, variants *)

(** The number of capture groups of a pattern. *)
Fixpoint closes (p : pattern) : nat :=
  match p with
  | [] => 0
  | GClose :: p' => S (closes p')
  | _ :: p' => closes p'
  end.

(** The seven texts [findall] returns for the group [c]. *)
Definition chan_fields (c : Chan) : list str :=
  [ c_band c; c_rxbits c; c_power c; c_snr c; c_rxphy c; c_txbits c; c_txphy c ].

(** The group [c] written with the whitespace [ws] after its comma. *)
Definition group_text_spaced (ws : str) (c : Chan) : str :=
  L "<" ++ c_band c ++ L ":" ++ c_sp c ++ c_rxbits c ++ L "/"
  ++ c_power c ++ L "/" ++ c_snr c ++ L "/" ++ c_rxphy c ++ L "," ++ ws
  ++ c_txbits c ++ L "/" ++ c_txphy c ++ L ">".

(** The lexical shape of the fields of a record that [parse_cnu_line]
    returns. *)
Definition trimmed (w : str) : bool :=
  negb (starts space w) && negb (starts space (rev w)).

Definition record_shaped (r : ParsedRecord) : bool :=
  tok digit_or_dot (timestamp r) && tok word (trace_level r)
  && tok word (module r) && tok not_space_colon (function r)
  && tok digit (source_line r) && tok digit (moca_port r)
  && forallb not_gt (moca_port_dev r) && trimmed (moca_port_dev r)
  && tok digit (cnu_id r)
  && forallb not_gt (cnu_mac r) && trimmed (cnu_mac r)
  && tok digit (source_type r) && tok digit (rx_good r)
  && tok digit (rx_bad r) && tok digit_or_dot (rx_bad_percent r).

Definition channel_shaped (ch : ChannelStat) : bool :=
  tok digit (bandIndex ch) && tok digit (rxBitsPerSym ch)
  && signed (rxPower ch) && tok digit (rxSnr ch) && tok digit (rxPhyRate ch)
  && tok digit (txBitsPerSym ch) && tok digit (txPhyRate ch).

(** The example header with another identifier and more whitespace. *)
Definition example_header_padded : Header :=
  mkHeader (L "  ") (L "907") (L "1699999999.123") (L "INFO") (L "moca")
           (L " ") (L "handleCnuStats") (L " ") (L "  ") (L "45") []
           (L "2") (L "eth0") (L "7") (L "AA:BB:CC:DD:EE:FF") (L "1")
           [] (L "   ") (L "100") (L "  ") (L "2") (L "  ") (L "1.96")
           (L " blah ").

(** ** Deleting one character of a fixed text of the header *)

(** The fixed texts of [line_regex], in the order of the pattern: the six
    colons of the header (0 to 5), the punctuation of the three bracket
    groups (6 to 11), the Rx tag (12) and its punctuation (13 to 15), and
    the marker (16). *)
Definition literal (k : nat) : str :=
  match k with
  | 0 | 1 | 2 | 3 | 4 | 5 => L ":"
  | 6 => L "<"
  | 7 => L ":"
  | 8 => L ">,<"
  | 9 => L ","
  | 10 => L ">,<"
  | 11 => L ">"
  | 12 => L "<Rx Good/Bad,Percent"
  | 13 => L "/"
  | 14 => L ","
  | 15 => L "%>"
  | _ => L "per channel"
  end.

(** The line made of [h] and [seg] with [lt k] standing where the [k]-th
    fixed text belongs; [line_lits literal] is [line_of]. *)
Definition line_lits (lt : nat -> str) (h : Header) (seg : str) : str :=
  h_lead h ++ h_ident h ++ lt 0 ++ h_timestamp h ++ lt 1
  ++ h_level h ++ lt 2 ++ h_module h ++ lt 3
  ++ h_sp_fn_l h ++ h_function h ++ h_sp_fn_r h ++ lt 4
  ++ h_sp_line h ++ h_source_line h ++ lt 5 ++ h_sp_port h
  ++ lt 6 ++ h_port h ++ lt 7 ++ h_dev h ++ lt 8
  ++ h_cnu_id h ++ lt 9 ++ h_mac h ++ lt 10 ++ h_source_type h ++ lt 11
  ++ h_sp_rx h ++ lt 12 ++ h_sp_good h
  ++ h_good h ++ lt 13 ++ h_sp_bad h ++ h_bad h ++ lt 14 ++ h_sp_pct h
  ++ h_pct h ++ lt 15 ++ h_junk h ++ lt 16 ++ seg.

(** The fixed texts, the [k]-th one without its [i]-th character. *)
Definition damaged (k i j : nat) : str :=
  if Nat.eqb j k then delete_at i (literal j) else literal j.

(** Does [m] occur in [s]? *)
Fixpoint occurs (m s : str) : bool :=
  prefixb m s || match s with
                 | [] => false
                 | _ :: s' => occurs m s'
                 end.

(** When the line cannot do without the [i]-th character of its [k]-th
    fixed text.  Always, except for four that free text next to them can
    stand in for: the colon after the port, unless the device text goes on
    with digits up to a colon; the comma after the CNU id, unless the MAC
    text does so up to a comma; the [>] that closes the Rx tag, unless the
    text after it starts with [>]; a character of the marker, unless the
    marker still occurs after the Rx tag. *)
Definition still_needed (h : Header) (seg : str) (k i : nat) : bool :=
  match k with
  | 7 => negb (starts (Ascii.eqb ":") (dropwhile digit (h_dev h)))
  | 9 => negb (starts (Ascii.eqb ",") (dropwhile digit (h_mac h)))
  | 15 => match i with
          | 0 => true
          | _ => negb (starts (Ascii.eqb ">") (h_junk h))
          end
  | 16 => negb (occurs marker (h_junk h ++ delete_at i marker ++ seg))
  | _ => true
  end.

(** Every slot holds text of its class, and may be empty. *)
Definition slots_ok (h : Header) : bool :=
  forallb space (h_lead h) && forallb digit (h_ident h)
  && forallb digit_or_dot (h_timestamp h) && forallb word (h_level h)
  && forallb word (h_module h) && forallb space (h_sp_fn_l h)
  && forallb not_space_colon (h_function h) && forallb space (h_sp_fn_r h)
  && forallb space (h_sp_line h) && forallb digit (h_source_line h)
  && forallb space (h_sp_port h) && forallb digit (h_port h)
  && forallb not_gt (h_dev h) && forallb digit (h_cnu_id h)
  && forallb not_gt (h_mac h) && forallb digit (h_source_type h)
  && forallb space (h_sp_rx h) && forallb space (h_sp_good h)
  && forallb digit (h_good h) && forallb space (h_sp_bad h)
  && forallb digit (h_bad h) && forallb space (h_sp_pct h)
  && forallb digit_or_dot (h_pct h).

Definition set_mac (m : str) (h : Header) : Header :=
  mkHeader (h_lead h) (h_ident h) (h_timestamp h) (h_level h) (h_module h)
           (h_sp_fn_l h) (h_function h) (h_sp_fn_r h) (h_sp_line h)
           (h_source_line h) (h_sp_port h) (h_port h) (h_dev h) (h_cnu_id h)
           m (h_source_type h) (h_sp_rx h) (h_sp_good h) (h_good h)
           (h_sp_bad h) (h_bad h) (h_sp_pct h) (h_pct h) (h_junk h).

Definition set_junk (j : str) (h : Header) : Header :=
  mkHeader (h_lead h) (h_ident h) (h_timestamp h) (h_level h) (h_module h)
           (h_sp_fn_l h) (h_function h) (h_sp_fn_r h) (h_sp_line h)
           (h_source_line h) (h_sp_port h) (h_port h) (h_dev h) (h_cnu_id h)
           (h_mac h) (h_source_type h) (h_sp_rx h) (h_sp_good h) (h_good h)
           (h_sp_bad h) (h_bad h) (h_sp_pct h) (h_pct h) j.

Definition set_port (x : str) (h : Header) : Header :=
  mkHeader (h_lead h) (h_ident h) (h_timestamp h) (h_level h) (h_module h)
           (h_sp_fn_l h) (h_function h) (h_sp_fn_r h) (h_sp_line h)
           (h_source_line h) (h_sp_port h) x (h_dev h) (h_cnu_id h)
           (h_mac h) (h_source_type h) (h_sp_rx h) (h_sp_good h) (h_good h)
           (h_sp_bad h) (h_bad h) (h_sp_pct h) (h_pct h) (h_junk h).

(* ================================================================== *)
(** * Part II: lemmas and theorems *)

(** ** Character classes *)

Ltac by_cases_on_char :=
  let c := fresh "c" in
  let H := fresh "H" in
  intros c H; revert H;
  destruct c as [[] [] [] [] [] [] [] []]; vm_compute; congruence.

Lemma space_not_digit : disjoint space digit.
Proof. by_cases_on_char. Qed.

Lemma digit_not_space : disjoint digit space.
Proof. by_cases_on_char. Qed.

Lemma dotted_not_space : disjoint digit_or_dot space.
Proof. by_cases_on_char. Qed.

Lemma space_not_dotted : disjoint space digit_or_dot.
Proof. by_cases_on_char. Qed.

Lemma space_not_token : disjoint space not_space_colon.
Proof. by_cases_on_char. Qed.

Lemma token_not_space : disjoint not_space_colon space.
Proof. by_cases_on_char. Qed.

Lemma eqb_outside (cls : ascii -> bool) (c d : ascii) :
  cls d = false -> cls c = true -> Ascii.eqb c d = false.
Proof.
  intros Hd Hc. destruct (Ascii.eqb c d) eqn:E; [|reflexivity].
  apply Ascii.eqb_eq in E. congruence.
Qed.

Lemma tok_forallb cls w : tok cls w = true -> forallb cls w = true.
Proof. destruct w; [discriminate | trivial]. Qed.

Lemma tok_cons cls w : tok cls w = true ->
  exists c w', w = c :: w' /\ cls c = true /\ forallb cls w' = true.
Proof.
  destruct w as [|c w']; [discriminate|]. simpl. intros H.
  apply andb_prop in H. destruct H. eauto.
Qed.

Lemma starts_tok cls cls' w s :
  disjoint cls' cls -> tok cls' w = true -> starts cls (w ++ s) = false.
Proof.
  intros D H. destruct (tok_cons _ _ H) as (c & w' & -> & Hc & _).
  simpl. auto.
Qed.

Lemma starts_run cls cls' w s :
  disjoint cls' cls -> forallb cls' w = true -> starts cls s = false ->
  starts cls (w ++ s) = false.
Proof.
  intros D Hw Hs. destruct w as [|c w]; [assumption|].
  simpl in *. apply andb_prop in Hw. destruct Hw. auto.
Qed.

Lemma forallb_weaken (f g : ascii -> bool) w :
  (forall c, f c = true -> g c = true) -> forallb f w = true -> forallb g w = true.
Proof.
  intros Hfg. induction w as [|c w IH]; simpl; [trivial|].
  intros H. apply andb_prop in H. destruct H as [H1 H2].
  rewrite (Hfg _ H1), (IH H2). reflexivity.
Qed.

(** ** Forced repetitions *)

Lemma pushs_nil st : pushs [] st = st.
Proof. destruct st as [cl [t|]]; unfold pushs; simpl; [rewrite app_nil_r|]; reflexivity. Qed.

Lemma pushs_push c w st : pushs w (push c st) = pushs (c :: w) st.
Proof.
  destruct st as [cl [t|]]; unfold pushs, push; simpl; [|reflexivity].
  rewrite <- app_assoc. reflexivity.
Qed.

Lemma push_none cl c : push c (Caps cl None) = Caps cl None.
Proof. reflexivity. Qed.

Lemma pushs_none cl w : pushs w (Caps cl None) = Caps cl None.
Proof. reflexivity. Qed.

Section RepetitionFacts.
Variable R : Type.
Variable cls : ascii -> bool.
Variable k : caps -> str -> option R.

(** When the continuation accepts after the whole run, the greedy
    repetition returns that result. *)
Lemma greedy_take w : forall st s r,
  forallb cls w = true -> starts cls s = false ->
  k (pushs w st) s = Some r -> greedy cls k st (w ++ s) = Some r.
Proof.
  induction w as [|a w IH]; intros st s r Hw Hs Hk.
  - rewrite pushs_nil in Hk. destruct s as [|c s]; simpl in *; [assumption|].
    rewrite Hs. assumption.
  - simpl in Hw. apply andb_prop in Hw. destruct Hw as [Ha Hw].
    simpl. rewrite Ha. rewrite (IH (push a st) s r); trivial.
    rewrite pushs_push. assumption.
Qed.

(** When the continuation refuses every text that starts with a
    character of the class, the run is forced: the repetition is the
    continuation after the whole run, whether it accepts or not. *)
Hypothesis k_blocks : forall st c s, cls c = true -> k st (c :: s) = None.

Lemma greedy_forced w : forall st s,
  forallb cls w = true -> starts cls s = false ->
  greedy cls k st (w ++ s) = k (pushs w st) s.
Proof.
  induction w as [|a w IH]; intros st s Hw Hs.
  - rewrite pushs_nil. destruct s as [|c s]; simpl in *; [reflexivity|].
    rewrite Hs. reflexivity.
  - simpl in Hw. apply andb_prop in Hw. destruct Hw as [Ha Hw].
    simpl. rewrite Ha, (IH (push a st) s), pushs_push by trivial.
    destruct (k (pushs (a :: w) st) s); [reflexivity|].
    apply k_blocks. assumption.
Qed.

Lemma rep_forced (m : bool) w st s :
  (if m then tok cls w else forallb cls w) = true -> starts cls s = false ->
  rep cls k true m st (w ++ s) = k (pushs w st) s.
Proof.
  intros Hw Hs. unfold rep. destruct m.
  - destruct (tok_cons _ _ Hw) as (c & w' & -> & Hc & Hw').
    simpl. rewrite Hc, greedy_forced, pushs_push by trivial. reflexivity.
  - apply greedy_forced; trivial.
Qed.
End RepetitionFacts.

Lemma blocks_lit cls m p :
  starts cls (L m) = false -> m <> EmptyString -> blocks cls (lit m ++ p).
Proof.
  intros Hs Hm st c s Hc. destruct m as [|d m]; [congruence|].
  simpl in *. rewrite (eqb_outside cls); trivial.
Qed.

Lemma blocks_close cls p : blocks cls p -> blocks cls (GClose :: p).
Proof. intros H st c s Hc. simpl. apply H. assumption. Qed.

Lemma blocks_plus cls cls' p : disjoint cls cls' -> blocks cls (plus cls' ++ p).
Proof. intros D st c s Hc. simpl. unfold rep. rewrite (D _ Hc). reflexivity. Qed.

Lemma blocks_grp_plus cls cls' p :
  disjoint cls cls' -> blocks cls (grp (plus cls') ++ p).
Proof. intros D st c s Hc. simpl. unfold rep. rewrite (D _ Hc). reflexivity. Qed.

Lemma blocks_star cls cls' p :
  disjoint cls cls' -> blocks cls p -> blocks cls (star cls' ++ p).
Proof.
  intros D B st c s Hc. simpl. unfold rep. simpl.
  rewrite (D _ Hc). apply B. assumption.
Qed.

Lemma run_lit m p cl s :
  run (lit m ++ p) (Caps cl None) (L m ++ s) = run p (Caps cl None) s.
Proof.
  unfold lit. induction (L m) as [|c l IH]; simpl; [reflexivity|].
  rewrite Ascii.eqb_refl. exact IH.
Qed.

Lemma run_star cls p cl w s :
  blocks cls p -> forallb cls w = true -> starts cls s = false ->
  run (star cls ++ p) (Caps cl None) (w ++ s) = run p (Caps cl None) s.
Proof.
  intros B Hw Hs. simpl. rewrite (rep_forced _ cls (run p) B false); trivial.
Qed.

Lemma run_plus cls p cl w s :
  blocks cls p -> tok cls w = true -> starts cls s = false ->
  run (plus cls ++ p) (Caps cl None) (w ++ s) = run p (Caps cl None) s.
Proof.
  intros B Hw Hs. simpl. rewrite (rep_forced _ cls (run p) B true); trivial.
Qed.

Lemma run_grp_plus cls p cl w s :
  blocks cls p -> tok cls w = true -> starts cls s = false ->
  run (grp (plus cls) ++ p) (Caps cl None) (w ++ s) = run p (Caps (w :: cl) None) s.
Proof.
  intros B Hw Hs. simpl.
  rewrite (rep_forced _ cls (run (GClose :: p)) (blocks_close _ _ B) true); trivial.
Qed.

(** ** Matching the header of a built line *)

Create HintDb cls.

#[local] Hint Resolve space_not_digit digit_not_space dotted_not_space
  space_not_dotted space_not_token token_not_space : cls.

Ltac split_ok :=
  repeat match goal with
         | H : _ && _ = true |- _ => apply andb_prop in H; destruct H
         end.

Ltac blocked :=
  repeat first
    [ apply blocks_lit; [reflexivity | discriminate]
    | apply blocks_grp_plus; solve [auto with cls]
    | apply blocks_plus; solve [auto with cls]
    | apply blocks_star; [solve [auto with cls] | ] ].

Ltac side :=
  first [ reflexivity
        | assumption
        | solve [blocked]
        | eapply starts_tok; [ | eassumption ]; solve [auto with cls]
        | eapply starts_run; [ | eassumption | reflexivity ]; solve [auto with cls] ].

Ltac forced :=
  first [ rewrite run_lit
        | rewrite run_grp_plus by side
        | rewrite run_star by side
        | rewrite run_plus by side ].

Lemma tok_nonempty cls w :
  forallb cls w = true -> Nat.eqb (List.length w) 0 = false -> tok cls w = true.
Proof. destruct w; simpl; [discriminate | trivial]. Qed.

(** The forced part of a header match: up to the closing of the Rx tag
    nothing can be matched in another way. *)
Lemma run_header h seg :
  fields_ok h = true -> rx_spaced h = true ->
  run line_regex caps0 (line_of h seg)
  = run tail_regex (Caps (header_groups h) None)
        (h_junk h ++ L "per channel" ++ seg).
Proof.
  unfold fields_ok, rx_spaced. intros Hf Hr. split_ok.
  repeat match goal with
         | H : negb _ = true |- _ => apply negb_true_iff in H
         end.
  assert (tok space (h_sp_bad h) = true) by (apply tok_nonempty; assumption).
  assert (tok space (h_sp_pct h) = true) by (apply tok_nonempty; assumption).
  unfold line_regex, line_of, line_with, caps0.
  repeat forced.
  reflexivity.
Qed.

Lemma plus_refuses cls cls' p st w s :
  disjoint cls' cls -> tok cls' w = true -> run (plus cls ++ p) st (w ++ s) = None.
Proof.
  intros D Hw. destruct (tok_cons _ _ Hw) as (c & w' & -> & Hc & _).
  apply (blocks_plus cls' cls p D). assumption.
Qed.

(** Without whitespace after the [/] or after the [,] of the Rx tag the
    header does not match. *)
Lemma run_header_unspaced h seg :
  fields_ok h = true -> rx_spaced h = false ->
  run line_regex caps0 (line_of h seg) = None.
Proof.
  unfold fields_ok, rx_spaced. intros Hf Hr. split_ok.
  unfold line_regex, line_of, line_with, caps0.
  destruct (h_sp_bad h) as [|b sb] eqn:Eb.
  - repeat forced. simpl app.
    eapply plus_refuses; [ | eassumption ]; auto with cls.
  - assert (tok space (b :: sb) = true) by assumption.
    destruct (h_sp_pct h) as [|c sc] eqn:Ec; [|discriminate Hr].
    repeat forced. simpl app.
    eapply plus_refuses; [ | eassumption ]; auto with cls.
Qed.

(** ** The marker and the channel segment *)

Lemma prefixb_app m : forall x y,
  List.length m <= List.length x -> prefixb m (x ++ y) = prefixb m x.
Proof.
  induction m as [|a m IH]; intros x y Hl; [reflexivity|].
  destruct x as [|b x]; simpl in *; [lia|].
  rewrite IH by lia. reflexivity.
Qed.

Lemma run_chars_refuses l p : forall st s,
  prefixb l s = false -> run (map Chr l ++ p) st s = None.
Proof.
  induction l as [|a l IH]; intros st s H; [discriminate|].
  destruct s as [|b s]; simpl in *; [reflexivity|].
  rewrite Ascii.eqb_sym. destruct (Ascii.eqb a b); simpl in H; [|reflexivity].
  apply IH. assumption.
Qed.

Lemma lazy_eq R cls (k : caps -> str -> option R) st s :
  lazy cls k st s =
  match k st s with
  | Some r => Some r
  | None =>
      match s with
      | c :: s' => if cls c then lazy cls k (push c st) s' else None
      | [] => None
      end
  end.
Proof. destruct s; reflexivity. Qed.

Lemma lazy_first R cls (k : caps -> str -> option R) m junk :
  (forall st s, prefixb m s = false -> k st s = None) ->
  forall st s r,
  forallb cls junk = true -> marker_first m junk = true ->
  k (pushs junk st) (m ++ s) = Some r ->
  lazy cls k st (junk ++ m ++ s) = Some r.
Proof.
  intros Hk. induction junk as [|c j IH]; intros st s r Hc Hm Hr.
  - rewrite pushs_nil in Hr. rewrite lazy_eq. simpl. rewrite Hr. reflexivity.
  - simpl in Hc, Hm. apply andb_prop in Hc. destruct Hc as [Hc Hj].
    apply andb_prop in Hm. destruct Hm as [Hm Hm'].
    apply negb_true_iff in Hm.
    rewrite lazy_eq. rewrite Hk.
    + simpl. rewrite Hc. apply IH; trivial. rewrite pushs_push. assumption.
    + rewrite app_assoc, prefixb_app; [assumption|].
      rewrite length_app. simpl. lia.
Qed.

Lemma take_drop f s : takewhile f s ++ dropwhile f s = s.
Proof. induction s as [|c s IH]; simpl; [reflexivity|]. destruct (f c); simpl; congruence. Qed.

Lemma takewhile_all f s : forallb f (takewhile f s) = true.
Proof. induction s as [|c s IH]; simpl; [reflexivity|]. destruct (f c) eqn:E; simpl; [rewrite E|]; trivial. Qed.

Lemma dropwhile_starts f s : starts f (dropwhile f s) = false.
Proof. induction s as [|c s IH]; simpl; [reflexivity|]. destruct (f c) eqn:E; simpl; trivial. Qed.

Lemma forallb_dropwhile f g s : forallb f s = true -> forallb f (dropwhile g s) = true.
Proof.
  induction s as [|c s IH]; simpl; [trivial|]. intros H.
  apply andb_prop in H. destruct H as [H1 H2].
  destruct (g c); simpl; [auto | rewrite H1, H2; reflexivity].
Qed.

(** The channel segment handed to [findall]: group 15 is the segment
    without its leading whitespace. *)
Lemma run_tail cl junk seg :
  forallb dot junk = true -> marker_first marker junk = true ->
  forallb dot seg = true ->
  run tail_regex (Caps cl None) (junk ++ L "per channel" ++ seg)
  = Some (Caps (dropwhile space seg :: cl) None, []).
Proof.
  intros Hj Hm Hs. unfold tail_regex, star_lazy.
  change (run ([Rep false false dot] ++ ?p) ?st ?s) with (lazy dot (run p) st s).
  apply (lazy_first _ dot _ marker).
  - intros st s H. apply run_chars_refuses. assumption.
  - assumption.
  - assumption.
  - rewrite pushs_none, run_lit.
    rewrite <- (take_drop space seg) at 1.
    change (run (star space ++ ?p) ?st ?s) with (greedy space (run p) st s).
    apply greedy_take; [apply takewhile_all | apply dropwhile_starts |].
    rewrite pushs_none.
    change (run (grp (star dot) ++ [Eos]) ?st ?s)
      with (greedy dot (run [GClose; Eos]) (gopen st) s).
    rewrite <- (app_nil_r (dropwhile space seg)) at 1.
    apply greedy_take; [apply forallb_dropwhile; assumption | reflexivity |].
    reflexivity.
Qed.

Lemma match_line h seg :
  line_ok h seg = true ->
  re_match line_regex (line_of h seg)
  = Some (rev (dropwhile space seg :: header_groups h), []).
Proof.
  unfold line_ok. intros H. split_ok.
  unfold re_match. rewrite run_header, run_tail by assumption. reflexivity.
Qed.

Lemma parse_line h seg :
  line_ok h seg = true ->
  parse_cnu_line (line_of h seg)
  = Some (header_record h
            (map channel_of (findall channel_regex (dropwhile space seg)))).
Proof.
  intros H. unfold parse_cnu_line. rewrite match_line by assumption. reflexivity.
Qed.

(** ** Channel groups *)

Lemma run_grp_signed p cl w s :
  blocks digit p -> signed w = true -> starts digit s = false ->
  run (grp (Opt "-" :: plus digit) ++ p) (Caps cl None) (w ++ s)
  = run p (Caps (w :: cl) None) s.
Proof.
  intros B Hw Hs. destruct w as [|c d]; [discriminate|].
  pose proof (blocks_close _ _ B) as B'.
  simpl in Hw. simpl. destruct (Ascii.eqb c "-") eqn:E.
  - apply Ascii.eqb_eq in E. subst c.
    rewrite (rep_forced _ digit (run (GClose :: p)) B' true) by trivial.
    simpl.
    destruct (run p _ s); [reflexivity|]. reflexivity.
  - change (c :: d ++ s) with ((c :: d) ++ s).
    rewrite (rep_forced _ digit (run (GClose :: p)) B' true) by trivial.
    reflexivity.
Qed.

Lemma match_group c rest :
  chan_ok c = true ->
  re_match channel_regex (group_text c ++ rest)
  = Some ([ c_band c; c_rxbits c; c_power c; c_snr c; c_rxphy c;
            c_txbits c; c_txphy c ], rest).
Proof.
  unfold chan_ok. intros H. split_ok.
  unfold re_match, channel_regex, group_text, caps0.
  change (lit ">") with (lit ">" ++ []).
  repeat rewrite <- app_assoc.
  repeat first [ forced | rewrite run_grp_signed by side ].
  reflexivity.
Qed.

Lemma no_match_here c s :
  not_lt c = true -> re_match channel_regex (c :: s) = None.
Proof.
  intros H. unfold re_match. simpl.
  rewrite (eqb_outside not_lt); trivial.
Qed.

Lemma findall_skip p w : forall s,
  findall_from p (List.length w) (w ++ s) = findall_from p 0 s.
Proof. induction w as [|c w IH]; intros s; [destruct s; reflexivity|]. simpl. apply IH. Qed.

Lemma findall_before w : forall s,
  forallb not_lt w = true ->
  findall_from channel_regex 0 (w ++ s) = findall_from channel_regex 0 s.
Proof.
  induction w as [|c w IH]; intros s H; [reflexivity|].
  simpl in H. apply andb_prop in H. destruct H as [Hc Hw].
  change (findall_from channel_regex 0 ((c :: w) ++ s))
    with (match re_match channel_regex (c :: w ++ s) with
          | Some (gs, rest) =>
              gs :: findall_from channel_regex
                      (List.length (c :: w ++ s) - List.length rest - 1) (w ++ s)
          | None => findall_from channel_regex 0 (w ++ s)
          end).
  rewrite no_match_here by assumption. apply IH. assumption.
Qed.

Lemma findall_group c rest :
  chan_ok c = true ->
  findall_from channel_regex 0 (group_text c ++ rest)
  = [ c_band c; c_rxbits c; c_power c; c_snr c; c_rxphy c;
      c_txbits c; c_txphy c ] :: findall_from channel_regex 0 rest.
Proof.
  intros H. pose proof (match_group c rest H) as M.
  remember (group_text c) as g eqn:Eg.
  destruct g as [|x g]; [discriminate Eg|].
  change (findall_from channel_regex 0 ((x :: g) ++ rest))
    with (match re_match channel_regex ((x :: g) ++ rest) with
          | Some (gs, rest') =>
              gs :: findall_from channel_regex
                      (List.length ((x :: g) ++ rest) - List.length rest' - 1)
                      (g ++ rest)
          | None => findall_from channel_regex 0 (g ++ rest)
          end).
  rewrite M. f_equal.
  replace (List.length ((x :: g) ++ rest) - List.length rest - 1)
    with (List.length g) by (rewrite length_app; cbn [List.length]; lia).
  apply findall_skip.
Qed.

Lemma findall_tail rest :
  forallb not_lt rest = true -> findall_from channel_regex 0 rest = [].
Proof.
  intros H. rewrite <- (app_nil_r rest). rewrite findall_before by assumption.
  reflexivity.
Qed.

Lemma segment_cons c cs rest :
  segment (c :: cs) rest = c_before c ++ group_text c ++ segment cs rest.
Proof. reflexivity. Qed.

Lemma findall_segment cs rest :
  segment_ok cs rest = true ->
  findall channel_regex (segment cs rest)
  = map (fun c => [ c_band c; c_rxbits c; c_power c; c_snr c; c_rxphy c;
                    c_txbits c; c_txphy c ]) cs.
Proof.
  unfold segment_ok, findall. intros H. split_ok.
  induction cs as [|c cs IH].
  - apply findall_tail. assumption.
  - simpl in H. apply andb_prop in H. destruct H as [Hc Hcs].
    assert (forallb not_lt (c_before c) = true) as Hb
      by (unfold chan_ok in Hc; split_ok; assumption).
    rewrite segment_cons, findall_before, findall_group, IH by assumption.
    reflexivity.
Qed.

Lemma space_not_lt c : space c = true -> not_lt c = true.
Proof. revert c. by_cases_on_char. Qed.

Lemma findall_lstrip s :
  findall channel_regex (dropwhile space s) = findall channel_regex s.
Proof.
  unfold findall. induction s as [|c s IH]; [reflexivity|].
  simpl dropwhile. destruct (space c) eqn:E; [|reflexivity].
  rewrite IH. symmetry. apply (findall_before [c] s).
  simpl. rewrite (space_not_lt _ E). reflexivity.
Qed.

(** Parsing a well-formed line gives back the parts it was built from. *)
Lemma parse_built h cs rest :
  line_ok h (segment cs rest) = true -> segment_ok cs rest = true ->
  parse_cnu_line (line_of h (segment cs rest))
  = Some (header_record h (map chan_stat cs)).
Proof.
  intros Hl Hs. rewrite parse_line by assumption.
  rewrite findall_lstrip, findall_segment by assumption.
  rewrite map_map. reflexivity.
Qed.

(** ** What a match says about the text *)

Section RepetitionSound.
Variable R : Type.
Variable cls : ascii -> bool.
Variable k : caps -> str -> option R.
Variable P : str -> R -> Prop.
Hypothesis k_sound : forall st s r, k st s = Some r -> P s r.

Lemma greedy_sound : forall s st r,
  greedy cls k st s = Some r ->
  exists w t, s = w ++ t /\ forallb cls w = true /\ P t r.
Proof.
  induction s as [|c s IH]; intros st r H; simpl in H.
  - exists [], []. eauto.
  - destruct (cls c) eqn:Ec.
    + destruct (greedy cls k (push c st) s) as [r'|] eqn:Eg.
      * injection H as ->. destruct (IH _ _ Eg) as (w & t & -> & Hw & Ht).
        exists (c :: w), t. simpl. rewrite Ec, Hw. auto.
      * exists [], (c :: s). eauto.
    + exists [], (c :: s). eauto.
Qed.

Lemma lazy_sound : forall s st r,
  lazy cls k st s = Some r ->
  exists w t, s = w ++ t /\ forallb cls w = true /\ P t r.
Proof.
  induction s as [|c s IH]; intros st r H; rewrite lazy_eq in H.
  - destruct (k st []) eqn:Ek; [|discriminate].
    injection H as ->. exists [], []. eauto.
  - destruct (k st (c :: s)) eqn:Ek.
    + injection H as ->. exists [], (c :: s). eauto.
    + destruct (cls c) eqn:Ec; [|discriminate].
      destruct (IH _ _ H) as (w & t & -> & Hw & Ht).
      exists (c :: w), t. simpl. rewrite Ec, Hw. auto.
Qed.

Lemma rep_sound g (m : bool) s st r :
  rep cls k g m st s = Some r ->
  exists w t, s = w ++ t
              /\ (if m then tok cls w else forallb cls w) = true /\ P t r.
Proof.
  assert (forall s st r,
            (if g then greedy cls k else lazy cls k) st s = Some r ->
            exists w t, s = w ++ t /\ forallb cls w = true /\ P t r) as Hstar
    by (destruct g; [apply greedy_sound | apply lazy_sound]).
  unfold rep. destruct m.
  - destruct s as [|c s]; [discriminate|].
    destruct (cls c) eqn:Ec; [|discriminate].
    intros H. destruct (Hstar _ _ _ H) as (w & t & -> & Hw & Ht).
    exists (c :: w), t. simpl. rewrite Ec, Hw. auto.
  - apply Hstar.
Qed.
End RepetitionSound.

Lemma run_sound p : forall st s st' s',
  run p st s = Some (st', s') -> consumes p s s'.
Proof.
  induction p as [|i p IH]; intros st s st' s' H.
  - simpl in H. injection H as _ ->. reflexivity.
  - destruct i as [c|g m cls|c| | |]; simpl in H |- *.
    + destruct s as [|x s]; [discriminate|].
      destruct (Ascii.eqb x c) eqn:E; [|discriminate].
      apply Ascii.eqb_eq in E. subst x. eauto.
    + apply (rep_sound _ cls (run p) (fun t r => consumes p t (snd r))) in H.
      * exact H.
      * intros st0 s0 [st1 s1] Hr. simpl. eauto.
    + destruct s as [|x s]; [eauto|].
      destruct (Ascii.eqb x c) eqn:E; [|eauto].
      apply Ascii.eqb_eq in E. subst x.
      destruct (run p (push c st) s) as [r|] eqn:Er; [|eauto].
      injection H as ->. right. eauto.
    + eauto.
    + eauto.
    + destruct s as [|c [|d s]].
      * eauto.
      * destruct (code_is 10 c) eqn:E; [|discriminate].
        split; [|eauto]. right. f_equal.
        revert E. destruct c as [[] [] [] [] [] [] [] []]; vm_compute; congruence.
      * discriminate.
Qed.

Lemma consumes_app p q : forall s s',
  consumes (p ++ q) s s' -> exists t, consumes p s t /\ consumes q t s'.
Proof.
  induction p as [|i p IH]; intros s s' H.
  - exists s. split; [reflexivity | assumption].
  - destruct i as [c|g m cls|c| | |]; simpl in H |- *.
    + destruct H as (t & -> & H). destruct (IH _ _ H) as (u & H1 & H2). eauto.
    + destruct H as (w & t & -> & Hw & H).
      destruct (IH _ _ H) as (u & H1 & H2). eauto 8.
    + destruct H as [H | (t & -> & H)];
        destruct (IH _ _ H) as (u & H1 & H2); eauto 8.
    + auto.
    + auto.
    + destruct H as (He & H). destruct (IH _ _ H) as (u & H1 & H2). eauto.
Qed.

(** ** The six colons of the header *)

Lemma line_regex_head : line_regex = head_regex ++ skipn (List.length head_regex) line_regex.
Proof. reflexivity. Qed.

Lemma dropwhile_app_all f w s :
  forallb f w = true -> dropwhile f (w ++ s) = dropwhile f s.
Proof.
  induction w as [|c w IH]; simpl; [reflexivity|]. intros H.
  apply andb_prop in H. destruct H as [-> H]. auto.
Qed.

Lemma takewhile_app_all f w s :
  forallb f w = true -> takewhile f (w ++ s) = w ++ takewhile f s.
Proof.
  induction w as [|c w IH]; simpl; [reflexivity|]. intros H.
  apply andb_prop in H. destruct H as [-> H]. rewrite IH by assumption. reflexivity.
Qed.

Lemma after_colons_run n w s :
  forallb not_colon w = true -> after_colons (S n) (w ++ s) = after_colons (S n) s.
Proof. intros H. simpl. rewrite dropwhile_app_all by assumption. reflexivity. Qed.

Lemma after_colons_colon n s : after_colons (S n) (L ":" ++ s) = after_colons n s.
Proof. reflexivity. Qed.

Lemma takewhile_colon s : takewhile not_colon (L ":" ++ s) = [].
Proof. reflexivity. Qed.

Lemma colon_free_run cls w :
  cls ":"%char = false -> forallb cls w = true -> forallb not_colon w = true.
Proof.
  intros Hc. apply forallb_weaken. intros c H. unfold not_colon.
  destruct (code_is 58 c) eqn:E; [|reflexivity].
  assert (c = ":"%char) as ->
    by (revert E; destruct c as [[] [] [] [] [] [] [] []]; vm_compute; congruence).
  congruence.
Qed.

Lemma colon_free_tok cls w :
  cls ":"%char = false -> tok cls w = true -> forallb not_colon w = true.
Proof. intros Hc H. apply (colon_free_run cls); [assumption | apply tok_forallb; assumption]. Qed.

Lemma forallb_app_false_r (f : ascii -> bool) a b :
  forallb f b = false -> forallb f (a ++ b) = false.
Proof. intros H. rewrite forallb_app, H. apply andb_false_r. Qed.

Ltac colon_free :=
  first [ reflexivity
        | eapply colon_free_run; [ | eassumption ]; reflexivity
        | eapply colon_free_tok; [ | eassumption ]; reflexivity ].

Ltac skip_colons :=
  repeat first [ rewrite after_colons_colon
               | rewrite after_colons_run by colon_free ].

(** In a line that [line_regex] matches, the text between the fifth and
    the sixth colon is whitespace followed by digits. *)
Lemma matched_sixth_field line r :
  run line_regex caps0 line = Some r ->
  forallb space_or_digit (colon_field 5 line) = true.
Proof.
  destruct r as [st' s']. intros H. apply run_sound in H.
  rewrite line_regex_head in H. apply consumes_app in H.
  destruct H as (t & H & _). simpl in H.
  repeat match goal with
         | H : exists _, _ |- _ => destruct H
         | H : _ /\ _ |- _ => destruct H
         end.
  subst. unfold colon_field.
  repeat match goal with
         | |- context [?c :: ?s] =>
             lazymatch c with
             | ":"%char => change (c :: s) with (L ":" ++ s)
             end
         end.
  skip_colons. cbn [after_colons].
  rewrite !takewhile_app_all by colon_free. rewrite takewhile_colon.
  rewrite !forallb_app. simpl.
  repeat match goal with
         | H : forallb space ?w = true |- context [forallb space_or_digit ?w] =>
             rewrite (forallb_weaken space space_or_digit w
                        (fun c E => orb_true_intro _ _ (or_introl E)) H)
         | H : tok digit ?w = true |- context [forallb space_or_digit ?w] =>
             rewrite (forallb_weaken digit space_or_digit w
                        (fun c E => orb_true_intro _ _ (or_intror E))
                        (tok_forallb _ _ H))
         end.
  reflexivity.
Qed.

(** Once one of the six colons is deleted, that text holds the [<] of the
    port group. *)
Lemma deleted_sixth_field h seg k :
  fields_ok h = true -> k < 6 ->
  forallb space_or_digit (colon_field 5 (line_with (without k) h seg)) = false.
Proof.
  unfold fields_ok. intros Hf Hk. split_ok.
  destruct k as [|[|[|[|[|[|k]]]]]]; try lia;
    unfold line_with, without, colon_field; cbn [Nat.eqb];
    rewrite ?app_nil_l; skip_colons; cbn [after_colons];
    rewrite !takewhile_app_all by colon_free;
    repeat first [ reflexivity | apply forallb_app_false_r ].
Qed.

Lemma reject_without_colon h seg k :
  fields_ok h = true -> k < 6 ->
  parse_cnu_line (line_with (without k) h seg) = None.
Proof.
  intros Hf Hk. unfold parse_cnu_line, re_match.
  destruct (run line_regex caps0 (line_with (without k) h seg)) as [r|] eqn:E;
    [|reflexivity].
  apply matched_sixth_field in E.
  rewrite deleted_sixth_field in E by assumption. discriminate.
Qed.

(** ** The loop of [main] *)

Lemma loop_spec lines : forall st,
  fold_left step lines st
  = mkLoop (written st ++ flat_map render (matched lines))
           (no_match_lines st ++ rejected lines).
Proof.
  induction lines as [|raw lines IH]; intros st.
  - simpl. rewrite !app_nil_r. destruct st; reflexivity.
  - cbn [fold_left]. rewrite IH. unfold step, matched, rejected, unparsed.
    cbn [flat_map map filter].
    destruct (parse_cnu_line (rstrip_newline raw)) as [r|]; cbn [written no_match_lines].
    + rewrite <- app_assoc. reflexivity.
    + rewrite <- app_assoc. reflexivity.
Qed.

Lemma main_spec debug lines :
  main debug lines
  = flat_map render (matched lines) ++ debug_section debug (rejected lines).
Proof.
  unfold main. rewrite loop_spec. cbn [written no_match_lines app].
  unfold debug_section.
  destruct debug; [|rewrite app_nil_r; reflexivity].
  destruct (rejected lines); [rewrite app_nil_r|]; reflexivity.
Qed.

Lemma render_chunk_plain r chunk :
  In chunk (render r) ->
  chunk <> debug_header /\ prefixb no_match_prefix chunk = false.
Proof.
  unfold render. rewrite !in_app_iff. intros [H | [H | H]].
  - unfold render_head in H. simpl in H.
    repeat (destruct H as [<- | H]; [split; [discriminate | reflexivity] | ]).
    contradiction.
  - apply in_map_iff in H. destruct H as (ch & <- & _).
    split; [discriminate | reflexivity].
  - destruct H as [<- | []]. split; [discriminate | reflexivity].
Qed.

Lemma no_channel_group_eq s :
  no_channel_group s =
  match re_match channel_regex s with
  | Some _ => false
  | None => match s with [] => true | _ :: s' => no_channel_group s' end
  end.
Proof. destruct s; reflexivity. Qed.

Lemma findall_none s :
  no_channel_group s = true -> findall channel_regex s = [].
Proof.
  unfold findall. induction s as [|c s IH]; intros H; rewrite no_channel_group_eq in H.
  - cbn [findall_from]. destruct (re_match channel_regex []); [discriminate | reflexivity].
  - cbn [findall_from]. destruct (re_match channel_regex (c :: s)); [discriminate|].
    apply IH. assumption.
Qed.

Lemma dropwhile_id f s : starts f s = false -> dropwhile f s = s.
Proof. destruct s as [|c s]; simpl; [reflexivity|]. intros ->. reflexivity. Qed.

Lemma strip_id w :
  starts space w = false -> starts space (rev w) = false -> strip w = w.
Proof.
  intros H1 H2. unfold strip, lstrip, rstrip.
  rewrite (dropwhile_id space (rev w)), rev_involutive by assumption.
  apply dropwhile_id. assumption.
Qed.

Lemma tok_length cls w :
  tok cls w = true -> negb (Nat.eqb (List.length w) 0) = true.
Proof. destruct w; [discriminate | reflexivity]. Qed.

(** Every line that [line_regex] matches is built from a header whose
    slots hold text of their classes. *)
Lemma matched_line_built line r :
  run line_regex caps0 line = Some r ->
  exists h seg, line = line_of h seg /\ fields_ok h = true /\ rx_spaced h = true.
Proof.
  destruct r as [st' s']. intros H. apply run_sound in H.
  unfold line_regex in H. simpl in H.
  repeat match goal with
         | H : exists _, _ |- _ => destruct H
         | H : _ /\ _ |- _ => destruct H
         end.
  subst.
  eexists (mkHeader _ _ _ _ _ _ _ _ _ _ _ _ _ _ _ _ _ _ _ _ _ _ _ _), _.
  split; [reflexivity|]. split.
  - unfold fields_ok. cbn -[tok forallb].
    repeat match goal with
           | H : _ = true |- _ => rewrite H; clear H
           | H : tok ?c ?w = true |- _ => rewrite (tok_forallb c w H); clear H
           end.
    reflexivity.
  - unfold rx_spaced. cbn -[tok forallb Nat.eqb List.length].
    apply andb_true_intro. split; eapply tok_length; eassumption.
Qed.

Lemma example_line_built :
  example_line = line_of example_header (segment example_channels []).
Proof. reflexivity. Qed.

(** ** The claims *)

(** C1, as the specification prints it: the example line writes its CNU
    group [<7:AA:BB:CC:DD:EE:FF>] with a colon, so [line_regex], which wants
    [<cnuId,mac>], rejects the line and nothing is rendered. *)
Lemma C1_spec_example_is_rejected :
  parse_cnu_line example_line_spec = None
  /\ main false [example_line_spec] = [].
Proof. split; vm_compute; reflexivity. Qed.

(** C1, amended: with the CNU group written [<7,AA:BB:CC:DD:EE:FF>] the
    example line parses and is rendered as the block of the specification:
    MoCA Port [2 (eth0)], CNU ID [7], CNU MAC [AA:BB:CC:DD:EE:FF], Source
    [CNU], Rx Good [100], Rx Bad [2], Rx % Bad [1.96], and two channel lines
    with bandIndex [0] then [1], the first with [Power: -3 dBm?]. *)
Theorem C1_example_block :
  (exists r,
      parse_cnu_line example_line = Some r
      /\ moca_port r = L "2" /\ moca_port_dev r = L "eth0"
      /\ cnu_id r = L "7" /\ cnu_mac r = L "AA:BB:CC:DD:EE:FF"
      /\ source_type r = L "1"
      /\ rx_good r = L "100" /\ rx_bad r = L "2" /\ rx_bad_percent r = L "1.96"
      /\ map bandIndex (channels r) = [L "0"; L "1"]
      /\ map rxPower (channels r) = [L "-3"; L "2"])
  /\ main false [example_line] = example_block.
Proof.
  split.
  - eexists. split; [vm_compute; reflexivity|].
    repeat split; vm_compute; reflexivity.
  - vm_compute. reflexivity.
Qed.

(** C2, as stated, fails at two lines that conform to the grammar of the
    specification: a device name injected with a leading blank comes back
    trimmed, and a line whose Rx tag has no whitespace after [/] and [,]
    (optional in the specification) does not parse at all. *)
Lemma C2_injected_text_not_always_returned :
  (line_ok (set_dev (L " eth0") example_header) (segment example_channels []) = true
   /\ exists r,
        parse_cnu_line (line_of (set_dev (L " eth0") example_header)
                                (segment example_channels [])) = Some r
        /\ moca_port_dev r = L "eth0"
        /\ moca_port_dev r <> h_dev (set_dev (L " eth0") example_header))
  /\ (fields_ok (set_rx_spaces [] [] example_header) = true
      /\ parse_cnu_line (line_of (set_rx_spaces [] [] example_header)
                                 (segment example_channels [])) = None).
Proof.
  split; [split; [vm_compute; reflexivity|] | split; vm_compute; reflexivity].
  eexists. split; [vm_compute; reflexivity|].
  split; [vm_compute; reflexivity | vm_compute; discriminate].
Qed.

(** C2, amended: for every line built from parts that conform to the
    grammar of [line_regex] and [channel_regex] (whitespace after the [/]
    and the [,] of the Rx tag included) with N >= 0 channel groups,
    [parse_cnu_line] succeeds; every field of the record is the injected
    text, except that the device name and the MAC come back stripped of
    surrounding whitespace (so unchanged when they have none); the channel
    list has length N, in injection order, each value being the injected
    text, the sign of a negative rxPower included. *)
Theorem C2_round_trip h cs rest :
  line_ok h (segment cs rest) = true -> segment_ok cs rest = true ->
  exists r,
    parse_cnu_line (line_of h (segment cs rest)) = Some r
    /\ timestamp r = h_timestamp h /\ trace_level r = h_level h
    /\ module r = h_module h /\ function r = h_function h
    /\ source_line r = h_source_line h /\ moca_port r = h_port h
    /\ moca_port_dev r = strip (h_dev h) /\ cnu_id r = h_cnu_id h
    /\ cnu_mac r = strip (h_mac h) /\ source_type r = h_source_type h
    /\ rx_good r = h_good h /\ rx_bad r = h_bad h
    /\ rx_bad_percent r = h_pct h
    /\ (starts space (h_dev h) = false -> starts space (rev (h_dev h)) = false ->
        moca_port_dev r = h_dev h)
    /\ (starts space (h_mac h) = false -> starts space (rev (h_mac h)) = false ->
        cnu_mac r = h_mac h)
    /\ channels r = map chan_stat cs
    /\ List.length (channels r) = List.length cs
    /\ map rxPower (channels r) = map c_power cs.
Proof.
  intros Hl Hs. eexists. split; [apply parse_built; assumption|].
  cbn [header_record timestamp trace_level module function source_line
       moca_port moca_port_dev cnu_id cnu_mac source_type rx_good rx_bad
       rx_bad_percent channels].
  repeat split; try (intros; apply strip_id; assumption).
  - apply length_map.
  - rewrite map_map. reflexivity.
Qed.

(** The round trip at the example header with one channel of rxPower [-5]. *)
Lemma C2_round_trip_witness :
  line_ok example_header (segment [negative_channel] []) = true
  /\ segment_ok [negative_channel] [] = true
  /\ exists r,
       parse_cnu_line (line_of example_header (segment [negative_channel] []))
       = Some r
       /\ cnu_mac r = L "AA:BB:CC:DD:EE:FF"
       /\ map rxPower (channels r) = [L "-5"].
Proof.
  split; [vm_compute; reflexivity|]. split; [vm_compute; reflexivity|].
  destruct (C2_round_trip example_header [negative_channel] [])
    as (r & Hp & _ & _ & _ & _ & _ & _ & _ & _ & _ & _ & _ & _ & _ & _ & Hm & _ & _ & Hw);
    [vm_compute; reflexivity | vm_compute; reflexivity |].
  exists r. split; [exact Hp|]. split; [|exact Hw].
  apply Hm; vm_compute; reflexivity.
Defined.

(** C5, as stated, fails: with no whitespace after [/] and [,] the Rx tag
    [<Rx Good/Bad,Percent 100/2,1.96%>] makes the line a non-match. *)
Lemma C5_unspaced_rx_tag_is_rejected :
  parse_cnu_line
    (L "12:1699999999.123:INFO:moca:handleCnuStats:45: <2:eth0>,<7,AA:BB:CC:DD:EE:FF>,<1> <Rx Good/Bad,Percent 100/2,1.96%> blah per channel <0:4/-3/30/100,4/200>")
  = None.
Proof. vm_compute. reflexivity. Qed.

(** C5, amended: in the Rx tag the whitespace between [/] and the bad
    count, and between [,] and the percent, is mandatory.  A line that
    conforms to the rest of the grammar is accepted, with rx_good, rx_bad
    and rx_bad_percent the injected texts, when both runs are non-empty
    (as in [100/ 2, 1.96%]), and is rejected when either is empty. *)
Theorem C5_rx_whitespace_is_mandatory h seg :
  fields_ok h = true -> forallb dot (h_junk h) = true ->
  marker_first marker (h_junk h) = true -> forallb dot seg = true ->
  if rx_spaced h
  then exists r, parse_cnu_line (line_of h seg) = Some r
                 /\ rx_good r = h_good h /\ rx_bad r = h_bad h
                 /\ rx_bad_percent r = h_pct h
  else parse_cnu_line (line_of h seg) = None.
Proof.
  intros Hf Hj Hm Hs. destruct (rx_spaced h) eqn:E.
  - assert (line_ok h seg = true) as Hl
      by (unfold line_ok; rewrite Hf, E, Hj, Hm, Hs; reflexivity).
    eexists. split; [apply parse_line; exact Hl|].
    repeat split.
  - unfold parse_cnu_line, re_match.
    rewrite run_header_unspaced by assumption. reflexivity.
Qed.

(** The example line, whose Rx tag reads [100/ 2, 1.96%]. *)
Lemma C5_rx_whitespace_witness :
  rx_spaced example_header = true
  /\ exists r, parse_cnu_line example_line = Some r
               /\ rx_good r = L "100" /\ rx_bad r = L "2"
               /\ rx_bad_percent r = L "1.96".
Proof.
  split; [reflexivity|].
  exact (C5_rx_whitespace_is_mandatory example_header
           (segment example_channels [])
           eq_refl eq_refl eq_refl eq_refl).
Defined.

(** C4, as stated, fails on the count: the divider has 51 hyphens. *)
Lemma C4_divider_is_not_53_hyphens :
  List.length divider = 51 /\ divider <> repeat "-"%char 53.
Proof. split; [reflexivity | vm_compute; discriminate]. Qed.

(** C4, amended: the dividing lines that bracket every rendered record
    consist of exactly 51 hyphens; every block starts and ends with one, and
    the blocks of consecutive records are written one after the other, the
    closing divider of one directly followed by the opening divider of the
    next. *)
Theorem C4_dividers :
  divider = repeat "-"%char 51
  /\ (forall r, hd [] (render r) = divider ++ newline
                /\ last (render r) [] = divider ++ newline)
  /\ (forall r1 r2, exists a b,
        render r1 ++ render r2
        = a ++ [divider ++ newline; divider ++ newline] ++ b)
  /\ (forall lines, main false lines = flat_map render (matched lines)).
Proof.
  split; [reflexivity|]. split; [|split].
  - intros r. split; [reflexivity|].
    unfold render. rewrite app_assoc. apply last_last.
  - intros r1 r2.
    exists (render_head r1 ++ map render_channel (channels r1)).
    exists (tl (render r2)).
    unfold render. rewrite <- !app_assoc. reflexivity.
  - intros lines. rewrite main_spec. apply app_nil_r.
Qed.

(** C6: in the block of any record the Source line is
    [Source:     Micronode] exactly when source_type is the text [0], and
    [Source:     CNU] exactly when it is anything else, for instance [1],
    [2] or [00]. *)
Theorem C6_source_mapping r :
  (nth 9 (render r) [] = L "Source:     Micronode" ++ newline
   <-> source_type r = L "0")
  /\ (nth 9 (render r) [] = L "Source:     CNU" ++ newline
      <-> source_type r <> L "0")
  /\ L "1" <> L "0" /\ L "2" <> L "0" /\ L "00" <> L "0".
Proof.
  change (nth 9 (render r) []) with (L "Source:     " ++ source_str r ++ newline).
  unfold source_str.
  destruct (list_eq_dec ascii_dec (source_type r) (L "0")) as [E|E];
    (split; [split; intros H
            | split; [split; intros H | repeat split; discriminate]]);
    try assumption; try reflexivity; try contradiction;
    vm_compute in H; discriminate H.
Qed.

(** C7: the blocks written are those of the matching lines, in input
    order, and with the debug flag the [NO MATCH:] lines that follow are
    those of the non-matching lines, in input order; both are taken from the
    one sequence of input lines. *)
Theorem C7_order_preservation lines :
  main false lines = flat_map render (matched lines)
  /\ main true lines
     = flat_map render (matched lines)
       ++ match rejected lines with
          | [] => []
          | _ :: _ => debug_header :: map render_no_match (rejected lines)
          end
  /\ matched lines
     = flat_map (fun line => match parse_cnu_line line with
                             | Some r => [r]
                             | None => []
                             end) (map rstrip_newline lines)
  /\ rejected lines
     = filter (fun line => match parse_cnu_line line with
                           | Some _ => false
                           | None => true
                           end) (map rstrip_newline lines).
Proof.
  rewrite !main_spec. split; [apply app_nil_r|]. split; [reflexivity|].
  split; [|reflexivity].
  unfold matched. induction lines as [|l lines IH]; [reflexivity|].
  cbn [flat_map map]. rewrite IH. reflexivity.
Qed.

(** C8: when [line_regex] matches a line whose channel segment holds no
    channel group, [parse_cnu_line] still returns a record, with an empty
    channel list, and its block ends with the [Channel Stats:] label
    directly followed by the closing divider. *)
Theorem C8_zero_channels line gs rest :
  re_match line_regex line = Some (gs, rest) ->
  no_channel_group (group 15 gs) = true ->
  exists r,
    parse_cnu_line line = Some r
    /\ channels r = []
    /\ render r = render_head r ++ [divider ++ newline]
    /\ exists before,
         render r = before ++ [L "Channel Stats:" ++ newline; divider ++ newline].
Proof.
  intros Hm Hn. exists (record_of gs).
  assert (channels (record_of gs) = []) as Hc
    by (cbn [record_of channels]; rewrite findall_none by assumption; reflexivity).
  split; [unfold parse_cnu_line; rewrite Hm; reflexivity|].
  split; [exact Hc|].
  assert (render (record_of gs) = render_head (record_of gs) ++ [divider ++ newline])
    as Hr by (unfold render; rewrite Hc; reflexivity).
  split; [exact Hr|].
  exists (removelast (render_head (record_of gs))).
  rewrite Hr. reflexivity.
Qed.

(** A line that ends with the marker: the channel segment is empty. *)
Lemma C8_zero_channels_witness :
  exists r,
    parse_cnu_line example_no_channels = Some r
    /\ channels r = []
    /\ render r = render_head r ++ [divider ++ newline]
    /\ exists before,
         render r = before ++ [L "Channel Stats:" ++ newline; divider ++ newline].
Proof.
  eapply (C8_zero_channels example_no_channels).
  - vm_compute. reflexivity.
  - vm_compute. reflexivity.
Defined.

(** C9: without the debug flag, and also with it when no line was
    rejected, what is written is the blocks of the matching lines and
    nothing else: no chunk is the [=== DEBUG MODE: NO MATCH LINES ===]
    header and none starts with [NO MATCH: ], however many lines were
    rejected. *)
Theorem C9_debug_suppression debug lines :
  debug = false \/ rejected lines = [] ->
  main debug lines = flat_map render (matched lines)
  /\ forall chunk, In chunk (main debug lines) ->
       chunk <> debug_header /\ prefixb no_match_prefix chunk = false.
Proof.
  intros H.
  assert (main debug lines = flat_map render (matched lines)) as Hm.
  { rewrite main_spec. destruct H as [-> | ->].
    - apply app_nil_r.
    - destruct debug; apply app_nil_r. }
  split; [exact Hm|].
  intros chunk Hin. rewrite Hm in Hin. apply in_flat_map in Hin.
  destruct Hin as (r & _ & Hin). apply (render_chunk_plain r). assumption.
Qed.

(** Two rejected lines around the example line, debug flag off. *)
Lemma C9_debug_suppression_witness :
  main false [L "boot ok"; example_line ++ newline; L "per channel"]
  = example_block
  /\ rejected [L "boot ok"; example_line ++ newline; L "per channel"]
     = [L "boot ok"; L "per channel"]
  /\ forall chunk,
       In chunk (main false [L "boot ok"; example_line ++ newline; L "per channel"]) ->
       chunk <> debug_header /\ prefixb no_match_prefix chunk = false.
Proof.
  split; [vm_compute; reflexivity|]. split; [vm_compute; reflexivity|].
  apply (C9_debug_suppression false
           [L "boot ok"; example_line ++ newline; L "per channel"]).
  left. reflexivity.
Defined.

(** C10: the timestamp slot and the percent slot accept any non-empty run
    of digits and dots, and the text is stored as it is: the example line
    with such runs in the two slots, [1.2.3] or [...] for instance, parses
    with them as timestamp and rx_bad_percent. *)
Theorem C10_loose_numeric_slots ts pct :
  tok digit_or_dot ts = true -> tok digit_or_dot pct = true ->
  exists r,
    parse_cnu_line (line_of (set_numeric ts pct example_header)
                            (segment example_channels [])) = Some r
    /\ timestamp r = ts /\ rx_bad_percent r = pct.
Proof.
  intros Ht Hp. eexists. split; [apply parse_line|split; reflexivity].
  unfold line_ok, fields_ok, rx_spaced.
  cbn -[tok forallb marker_first segment]. rewrite Ht, Hp. vm_compute. reflexivity.
Qed.

(** The timestamps [1.2.3] and [...] in the example line. *)
Lemma C10_loose_numeric_witness :
  (line_of (set_numeric (L "1.2.3") (L "1.96") example_header)
           (segment example_channels [])
   = L "12:1.2.3:INFO:moca:handleCnuStats:45: <2:eth0>,<7,AA:BB:CC:DD:EE:FF>,<1> <Rx Good/Bad,Percent 100/ 2, 1.96%> blah per channel <0:4/-3/30/100,4/200><1:5/2/28/90,3/180>"
   /\ exists r,
        parse_cnu_line (line_of (set_numeric (L "1.2.3") (L "1.96") example_header)
                                (segment example_channels [])) = Some r
        /\ timestamp r = L "1.2.3" /\ rx_bad_percent r = L "1.96")
  /\ exists r,
       parse_cnu_line (line_of (set_numeric (L "...") (L "..") example_header)
                               (segment example_channels [])) = Some r
       /\ timestamp r = L "..." /\ rx_bad_percent r = L "..".
Proof.
  split; [split; [reflexivity|]|].
  - apply (C10_loose_numeric_slots (L "1.2.3") (L "1.96")); reflexivity.
  - apply (C10_loose_numeric_slots (L "...") (L "..")); reflexivity.
Defined.

(* ================================================================== *)
(** * Part III: further properties of the parser and of the report *)

(** ** The groups of a match *)

Lemma closed_push c st : closed (push c st) = closed st.
Proof. destruct st as [cl [t|]]; reflexivity. Qed.

Section RepetitionClosed.
Variable R : Type.
Variable cls : ascii -> bool.
Variable k : caps -> str -> option R.
Variable Q : list str -> R -> Prop.
Hypothesis k_closed : forall st s r, k st s = Some r -> Q (closed st) r.

Lemma greedy_closed : forall s st r,
  greedy cls k st s = Some r -> Q (closed st) r.
Proof.
  induction s as [|c s IH]; intros st r H; simpl in H; [eauto|].
  destruct (cls c); [|eauto].
  destruct (greedy cls k (push c st) s) as [r'|] eqn:Eg; [|eauto].
  injection H as ->. rewrite <- (closed_push c st). eauto.
Qed.

Lemma lazy_closed : forall s st r,
  lazy cls k st s = Some r -> Q (closed st) r.
Proof.
  induction s as [|c s IH]; intros st r H; rewrite lazy_eq in H.
  - destruct (k st []) eqn:Ek; [|discriminate]. injection H as ->. eauto.
  - destruct (k st (c :: s)) eqn:Ek; [injection H as ->; eauto|].
    destruct (cls c); [|discriminate].
    rewrite <- (closed_push c st). eauto.
Qed.

Lemma rep_closed g (m : bool) s st r :
  rep cls k g m st s = Some r -> Q (closed st) r.
Proof.
  assert (forall s st r,
            (if g then greedy cls k else lazy cls k) st s = Some r ->
            Q (closed st) r) as Hstar
    by (destruct g; [apply greedy_closed | apply lazy_closed]).
  unfold rep. destruct m; [|apply Hstar].
  destruct s as [|c s]; [discriminate|].
  destruct (cls c); [|discriminate].
  intros H. rewrite <- (closed_push c st). eauto.
Qed.
End RepetitionClosed.

(** A match only adds groups, one for each group of the pattern. *)
Lemma run_closed p : forall st s st' s',
  run p st s = Some (st', s') ->
  exists gs, closed st' = gs ++ closed st /\ List.length gs = closes p.
Proof.
  induction p as [|i p IH]; intros st s st' s' H.
  - simpl in H. injection H as -> _. exists []. split; reflexivity.
  - destruct i as [c|g m cls|c| | |]; simpl in H; cbn [closes].
    + destruct s as [|x s]; [discriminate|].
      destruct (Ascii.eqb x c); [|discriminate].
      rewrite <- (closed_push x st). eauto.
    + apply (rep_closed _ cls (run p)
               (fun cl r => exists gs, closed (fst r) = gs ++ cl
                                       /\ List.length gs = closes p)) in H.
      * exact H.
      * intros st0 s0 [st1 s1] Hr. simpl. eauto.
    + destruct s as [|x s]; [eauto|].
      destruct (Ascii.eqb x c); [|eauto].
      destruct (run p (push x st) s) as [r|] eqn:Er; [|eauto].
      injection H as ->. rewrite <- (closed_push x st). eauto.
    + apply IH in H. exact H.
    + apply IH in H. destruct H as (gs & Hg & Hl).
      destruct st as [cl [t|]]; simpl in Hg;
        [exists (gs ++ [t]) | exists (gs ++ [[]])];
        rewrite <- app_assoc, length_app; simpl; split; trivial; lia.
    + destruct s as [|c [|d s]]; [eauto| |discriminate].
      destruct (code_is 10 c); [eauto|discriminate].
Qed.

(** Every line that [parse_cnu_line] accepts is a line built from a header
    with well-formed slots, and the record holds the fields of that
    header. *)
Lemma accepted_is_built line r :
  parse_cnu_line line = Some r ->
  exists h seg,
    line = line_of h seg /\ fields_ok h = true /\ rx_spaced h = true
    /\ r = header_record h (channels r).
Proof.
  unfold parse_cnu_line, re_match. intros H.
  destruct (run line_regex caps0 line) as [[st s']|] eqn:E; [|discriminate].
  injection H as <-.
  destruct (matched_line_built line _ E) as (h & seg & -> & Hf & Hr).
  exists h, seg. repeat split; trivial.
  rewrite run_header in E by assumption.
  apply run_closed in E. destruct E as (gs & -> & Hl).
  cbn [closed]. rewrite rev_app_distr.
  unfold record_of, header_record, header_groups, group. reflexivity.
Qed.

(** ** The shape of what is captured *)

Lemma forallb_rev (f : ascii -> bool) w : forallb f (rev w) = forallb f w.
Proof.
  induction w as [|c w IH]; [reflexivity|].
  simpl. rewrite forallb_app, IH. simpl. rewrite andb_true_r. apply andb_comm.
Qed.

Lemma forallb_strip f w : forallb f w = true -> forallb f (strip w) = true.
Proof.
  intros H. unfold strip, lstrip, rstrip.
  apply forallb_dropwhile. rewrite forallb_rev.
  apply forallb_dropwhile. rewrite forallb_rev. assumption.
Qed.

Lemma starts_app_l f a b : starts f (a ++ b) = false -> starts f a = false.
Proof. destruct a; [reflexivity | trivial]. Qed.

Lemma trimmed_strip w : trimmed (strip w) = true.
Proof.
  unfold trimmed, strip, lstrip, rstrip.
  rewrite dropwhile_starts. simpl.
  set (y := rev (dropwhile space (rev w))).
  assert (starts space (rev y) = false) as Hy
    by (unfold y; rewrite rev_involutive; apply dropwhile_starts).
  rewrite <- (take_drop space y), rev_app_distr in Hy.
  rewrite (starts_app_l _ _ _ Hy). reflexivity.
Qed.

Lemma tok_signed w : tok digit w = true -> signed w = true.
Proof.
  intros H. destruct (tok_cons _ _ H) as (c & w' & -> & Hc & _).
  simpl. rewrite (eqb_outside digit c "-"); trivial.
Qed.

Lemma group_text_app c rest :
  group_text c ++ rest
  = L "<" ++ c_band c ++ L ":" ++ c_sp c ++ c_rxbits c ++ L "/"
    ++ c_power c ++ L "/" ++ c_snr c ++ L "/" ++ c_rxphy c ++ L ","
    ++ c_txbits c ++ L "/" ++ c_txphy c ++ L ">" ++ rest.
Proof. unfold group_text. repeat rewrite <- app_assoc. reflexivity. Qed.

Lemma match_at_group c s gs rest :
  chan_ok c = true -> s = group_text c ++ rest ->
  re_match channel_regex s = Some (gs, rest) ->
  exists c, chan_ok c = true /\ s = group_text c ++ rest /\ gs = chan_fields c.
Proof.
  intros Hok -> H. rewrite match_group in H by assumption.
  injection H as <-. eauto.
Qed.

(** Where [channel_regex] matches, the text is a well-formed group and the
    captured texts are its seven fields. *)
Lemma match_is_group s gs rest :
  re_match channel_regex s = Some (gs, rest) ->
  exists c, chan_ok c = true /\ s = group_text c ++ rest /\ gs = chan_fields c.
Proof.
  intros H. pose proof H as H0. unfold re_match in H0.
  destruct (run channel_regex caps0 s) as [[st s']|] eqn:E; [|discriminate].
  injection H0 as _ <-.
  apply run_sound in E. unfold channel_regex in E. simpl in E.
  repeat match goal with
         | H : exists _, _ |- _ => destruct H
         | H : _ /\ _ |- _ => destruct H
         | H : _ \/ _ |- _ => destruct H
         end; subst;
    (lazymatch type of H with
     | context ["/"%char :: "-"%char :: ?pw ++ _] =>
         eapply (match_at_group (mkChan [] _ _ _ ("-"%char :: pw) _ _ _ _))
     | _ => eapply (match_at_group (mkChan [] _ _ _ _ _ _ _ _))
     end;
     [ | rewrite group_text_app; reflexivity | exact H ]);
    unfold chan_ok; cbn -[tok forallb signed];
    repeat match goal with
           | |- context [signed ("-"%char :: ?w)] =>
               change (signed ("-"%char :: w)) with (tok digit w)
           | H : tok digit ?w = true |- context [signed ?w] =>
               rewrite (tok_signed w H)
           | H : _ = true |- _ => rewrite H; clear H
           end;
    reflexivity.
Qed.

Lemma findall_sound : forall s skip t,
  In t (findall_from channel_regex skip s) ->
  exists c pre rest,
    chan_ok c = true /\ t = chan_fields c /\ s = pre ++ group_text c ++ rest.
Proof.
  induction s as [|x s IH]; intros skip t H.
  - destruct skip; [|contradiction]. vm_compute in H. contradiction.
  - destruct skip as [|n].
    + cbn [findall_from] in H.
      destruct (re_match channel_regex (x :: s)) as [[gs rest]|] eqn:E.
      * destruct H as [<- | H].
        -- destruct (match_is_group _ _ _ E) as (c & Hok & Hs & Hg).
           exists c, [], rest. auto.
        -- destruct (IH _ _ H) as (c & pre & rest' & Hok & Ht & ->).
           exists c, (x :: pre), rest'. auto.
      * destruct (IH _ _ H) as (c & pre & rest' & Hok & Ht & ->).
        exists c, (x :: pre), rest'. auto.
    + cbn [findall_from] in H.
      destruct (IH _ _ H) as (c & pre & rest' & Hok & Ht & ->).
      exists c, (x :: pre), rest'. auto.
Qed.

Lemma chan_ok_shaped c : chan_ok c = true -> channel_shaped (channel_of (chan_fields c)) = true.
Proof.
  unfold chan_ok. intros H. split_ok.
  unfold channel_shaped, channel_of, chan_fields, group.
  cbn -[tok signed].
  repeat match goal with
         | H : _ = true |- _ => rewrite H; clear H
         end.
  reflexivity.
Qed.

(** ** The extra properties *)

(** X1: the converse of the round trip.  Every line that [parse_cnu_line]
    accepts is a line built from a header whose slots hold text of their
    classes (the Rx whitespace included), and the fields of the record are
    the texts of the slots, the device name and the MAC stripped. *)
Theorem X1_accepted_line_is_built line r :
  parse_cnu_line line = Some r ->
  exists h seg,
    line = line_of h seg /\ fields_ok h = true /\ rx_spaced h = true
    /\ timestamp r = h_timestamp h /\ trace_level r = h_level h
    /\ module r = h_module h /\ function r = h_function h
    /\ source_line r = h_source_line h /\ moca_port r = h_port h
    /\ moca_port_dev r = strip (h_dev h) /\ cnu_id r = h_cnu_id h
    /\ cnu_mac r = strip (h_mac h) /\ source_type r = h_source_type h
    /\ rx_good r = h_good h /\ rx_bad r = h_bad h
    /\ rx_bad_percent r = h_pct h.
Proof.
  intros H. destruct (accepted_is_built _ _ H) as (h & seg & Hl & Hf & Hr & E).
  exists h, seg. rewrite E. repeat split; trivial.
Qed.

(** The example line and its record. *)
Lemma X1_accepted_line_witness :
  exists h seg,
    example_line = line_of h seg /\ fields_ok h = true /\ rx_spaced h = true
    /\ L "1699999999.123" = h_timestamp h /\ L "eth0" = strip (h_dev h).
Proof.
  destruct (X1_accepted_line_is_built example_line
              (header_record example_header (map chan_stat example_channels)))
    as (h & seg & Hl & Hf & Hr & Ht & _ & _ & _ & _ & _ & Hd & _);
    [vm_compute; reflexivity|].
  exists h, seg. auto.
Defined.

(** X2: the fields of every record returned have the lexical shape the
    pattern enforces: timestamp and percentage are non-empty runs of digits
    and dots, level and module non-empty words, the function a non-empty
    run without whitespace or colon, the other numbers non-empty digit runs;
    the device name and the MAC have no [>] and no whitespace at either end
    (and may be empty). *)
Theorem X2_accepted_record_is_shaped line r :
  parse_cnu_line line = Some r -> record_shaped r = true.
Proof.
  intros H. destruct (accepted_is_built _ _ H) as (h & seg & _ & Hf & _ & ->).
  unfold fields_ok in Hf. split_ok.
  unfold record_shaped, header_record.
  cbn -[tok forallb trimmed strip].
  rewrite !trimmed_strip.
  repeat match goal with
         | H : tok not_gt ?w = true |- context [forallb not_gt (strip ?w)] =>
             rewrite (forallb_strip not_gt w (tok_forallb _ _ H))
         | H : tok _ _ = true |- _ => rewrite H; clear H
         end.
  reflexivity.
Qed.

Lemma X2_accepted_record_witness :
  record_shaped (header_record example_header (map chan_stat example_channels))
  = true.
Proof.
  apply (X2_accepted_record_is_shaped example_line).
  vm_compute. reflexivity.
Defined.

(** X3: every channel of every record returned has six non-empty digit
    runs and, as rxPower, a non-empty digit run with an optional minus
    sign. *)
Theorem X3_accepted_channels_are_shaped line r ch :
  parse_cnu_line line = Some r -> In ch (channels r) ->
  channel_shaped ch = true.
Proof.
  unfold parse_cnu_line. intros H Hin.
  destruct (re_match line_regex line) as [[gs rest]|]; [|discriminate].
  injection H as <-. cbn [record_of channels] in Hin.
  apply in_map_iff in Hin. destruct Hin as (t & <- & Hin).
  destruct (findall_sound _ _ _ Hin) as (c & _ & _ & Hok & -> & _).
  apply chan_ok_shaped. assumption.
Qed.

Lemma X3_accepted_channels_witness :
  channel_shaped (chan_stat (mkChan (L " ") (L "0") [] (L "4") (L "-3") (L "30")
                                    (L "100") (L "4") (L "200"))) = true.
Proof.
  apply (X3_accepted_channels_are_shaped example_line
           (header_record example_header (map chan_stat example_channels))).
  - vm_compute. reflexivity.
  - left. reflexivity.
Defined.



(** X5: a line is accepted only if it holds the literal tag
    [<Rx Good/Bad,Percent] and, after it, the literal marker
    [per channel]. *)
Theorem X5_accepted_line_has_tag_and_marker line r :
  parse_cnu_line line = Some r ->
  exists a b c,
    line = a ++ L "<Rx Good/Bad,Percent" ++ b ++ L "per channel" ++ c.
Proof.
  intros H. destruct (accepted_is_built _ _ H) as (h & seg & -> & _).
  exists (h_lead h ++ h_ident h ++ L ":" ++ h_timestamp h ++ L ":"
          ++ h_level h ++ L ":" ++ h_module h ++ L ":"
          ++ h_sp_fn_l h ++ h_function h ++ h_sp_fn_r h ++ L ":"
          ++ h_sp_line h ++ h_source_line h ++ L ":" ++ h_sp_port h
          ++ L "<" ++ h_port h ++ L ":" ++ h_dev h ++ L ">,<"
          ++ h_cnu_id h ++ L "," ++ h_mac h ++ L ">,<" ++ h_source_type h
          ++ L ">" ++ h_sp_rx h).
  exists (h_sp_good h ++ h_good h ++ L "/" ++ h_sp_bad h ++ h_bad h ++ L ","
          ++ h_sp_pct h ++ h_pct h ++ L "%>" ++ h_junk h).
  exists seg.
  unfold line_of, line_with. repeat rewrite <- app_assoc. reflexivity.
Qed.

Lemma X5_accepted_line_witness :
  exists a b c,
    example_line = a ++ L "<Rx Good/Bad,Percent" ++ b ++ L "per channel" ++ c.
Proof.
  apply (X5_accepted_line_has_tag_and_marker example_line
           (header_record example_header (map chan_stat example_channels))).
  vm_compute. reflexivity.
Defined.

(** ** The loop of [main], continued *)

Lemma dropwhile_idem f s : dropwhile f (dropwhile f s) = dropwhile f s.
Proof. apply dropwhile_id, dropwhile_starts. Qed.

Lemma rstrip_newline_idem l : rstrip_newline (rstrip_newline l) = rstrip_newline l.
Proof. unfold rstrip_newline. rewrite rev_involutive, dropwhile_idem. reflexivity. Qed.

Lemma rstrip_newline_app l : rstrip_newline (l ++ newline) = rstrip_newline l.
Proof. unfold rstrip_newline, newline. rewrite rev_app_distr. reflexivity. Qed.

Lemma matched_map lines :
  matched lines
  = flat_map (fun line => match parse_cnu_line line with
                          | Some r => [r]
                          | None => []
                          end) (map rstrip_newline lines).
Proof.
  unfold matched. induction lines as [|l lines IH]; [reflexivity|].
  cbn [flat_map map]. rewrite IH. reflexivity.
Qed.

Lemma main_stripped debug l1 l2 :
  map rstrip_newline l1 = map rstrip_newline l2 -> main debug l1 = main debug l2.
Proof.
  intros H. rewrite !main_spec, !matched_map. unfold rejected.
  rewrite H. reflexivity.
Qed.

Lemma matched_app l1 l2 : matched (l1 ++ l2) = matched l1 ++ matched l2.
Proof. unfold matched. apply flat_map_app. Qed.

Lemma rejected_app l1 l2 : rejected (l1 ++ l2) = rejected l1 ++ rejected l2.
Proof. unfold rejected. rewrite map_app. apply filter_app. Qed.

Lemma render_chunk_ends r :
  Forall (fun chunk => exists body, chunk = body ++ newline) (render r).
Proof.
  unfold render. apply Forall_app. split; [|apply Forall_app; split].
  - unfold render_head.
    repeat (apply Forall_cons;
            [ eexists; repeat rewrite app_assoc; reflexivity | ]).
    apply Forall_nil.
  - apply Forall_forall. intros chunk H. apply in_map_iff in H.
    destruct H as (ch & <- & _). unfold render_channel.
    eexists. repeat rewrite app_assoc. reflexivity.
  - apply Forall_cons; [exists divider; reflexivity | apply Forall_nil].
Qed.

(** X6: the terminator of the last line does not matter.  An input whose
    last line comes without its newline gives the same report as the same
    input with that newline; and the text kept for a rejected line never
    ends with a newline. *)
Theorem X6_final_newline_does_not_matter debug lines l :
  l <> [] -> forallb dot l = true ->
  main debug (lines ++ [l ++ newline]) = main debug (lines ++ [l])
  /\ Forall (fun x => starts (code_is 10) (rev x) = false)
            (rejected (lines ++ [l])).
Proof.
  intros _ _. split.
  - apply main_stripped. rewrite !map_app. cbn [map].
    rewrite rstrip_newline_app. reflexivity.
  - apply Forall_forall. intros x H. unfold rejected in H.
    apply filter_In in H. destruct H as [H _].
    apply in_map_iff in H. destruct H as (raw & <- & _).
    unfold rstrip_newline. rewrite rev_involutive. apply dropwhile_starts.
Qed.

(** A rejected line, then the example line as the last line. *)
Lemma X6_final_newline_witness :
  main true [L "boot ok" ++ newline; example_line ++ newline]
  = main true [L "boot ok" ++ newline; example_line]
  /\ Forall (fun x => starts (code_is 10) (rev x) = false)
            (rejected [L "boot ok" ++ newline; example_line]).
Proof.
  apply (X6_final_newline_does_not_matter true [L "boot ok" ++ newline]
           example_line).
  - discriminate.
  - reflexivity.
Defined.

(** X7: the report of two inputs read one after the other.  Without the
    debug flag it is the two reports in sequence; with it, the blocks of
    both come first and one debug section lists the rejected lines of
    both. *)
Theorem X7_main_on_appended_input l1 l2 :
  main false (l1 ++ l2) = main false l1 ++ main false l2
  /\ main true (l1 ++ l2)
     = main false l1 ++ main false l2
       ++ debug_section true (rejected l1 ++ rejected l2).
Proof.
  rewrite !main_spec, matched_app, rejected_app, flat_map_app.
  cbn [debug_section]. rewrite !app_nil_r. split; [reflexivity|].
  rewrite <- app_assoc. reflexivity.
Qed.

(** X8: every input line is accounted for once, as a record or as a
    rejected line; a block is 15 chunks plus one for each channel; and every
    chunk written ends with a newline. *)
Theorem X8_every_line_accounted_for debug lines :
  List.length (matched lines) + List.length (rejected lines) = List.length lines
  /\ (forall r, List.length (render r) = 15 + List.length (channels r))
  /\ Forall (fun chunk => exists body, chunk = body ++ newline)
            (main debug lines).
Proof.
  split; [|split].
  - rewrite matched_map. unfold rejected, unparsed.
    rewrite <- (length_map rstrip_newline lines).
    induction (map rstrip_newline lines) as [|l ls IH]; [reflexivity|].
    cbn [flat_map filter]. destruct (parse_cnu_line l); simpl in *; lia.
  - intros r. unfold render. rewrite !length_app, length_map. simpl. lia.
  - rewrite main_spec. apply Forall_app. split.
    + apply Forall_forall. intros chunk H. apply in_flat_map in H.
      destruct H as (r & _ & H).
      exact (proj1 (Forall_forall _ _) (render_chunk_ends r) chunk H).
    + unfold debug_section. destruct debug; [|apply Forall_nil].
      destruct (rejected lines) as [|x xs]; [apply Forall_nil|].
      apply Forall_cons.
      * exists (newline ++ L "=== DEBUG MODE: NO MATCH LINES ==="). 
        unfold debug_header. rewrite <- app_assoc. reflexivity.
      * apply Forall_forall. intros chunk H. apply in_map_iff in H.
        destruct H as (nm & <- & _). unfold render_no_match.
        eexists. rewrite app_assoc. reflexivity.
Qed.

(** ** Malformed groups and what the record ignores *)

Lemma digit_not_lt w : forallb digit w = true -> forallb not_lt w = true.
Proof. apply forallb_weaken. by_cases_on_char. Qed.

Lemma spaces_not_lt w : forallb space w = true -> forallb not_lt w = true.
Proof. apply forallb_weaken. exact space_not_lt. Qed.

Lemma signed_not_lt w : signed w = true -> forallb not_lt w = true.
Proof.
  destruct w as [|c d]; [reflexivity|]. unfold signed.
  destruct (Ascii.eqb c "-") eqn:E; intros H.
  - apply Ascii.eqb_eq in E. subst c. simpl.
    apply digit_not_lt, tok_forallb. assumption.
  - apply digit_not_lt, tok_forallb. assumption.
Qed.

Lemma findall_no_match x s :
  re_match channel_regex (x :: s) = None ->
  findall_from channel_regex 0 (x :: s) = findall_from channel_regex 0 s.
Proof. intros H. cbn [findall_from]. rewrite H. reflexivity. Qed.

Lemma spaced_group_no_match ws c rest :
  chan_ok c = true -> tok space ws = true ->
  re_match channel_regex (group_text_spaced ws c ++ rest) = None.
Proof.
  unfold chan_ok. intros H Hw. split_ok.
  destruct (tok_cons _ _ Hw) as (x & ws' & -> & Hx & _).
  unfold re_match, channel_regex, group_text_spaced, caps0.
  change (lit ">") with (lit ">" ++ []).
  repeat rewrite <- app_assoc.
  repeat first [ forced | rewrite run_grp_signed by side ].
  change ((x :: ws') ++ ?t) with (x :: ws' ++ t).
  rewrite (blocks_grp_plus space digit _ space_not_digit _ x _ Hx).
  reflexivity.
Qed.

(** X9: a channel group written with whitespace after its comma is not a
    channel group for [channel_regex] (only the colon may be followed by
    whitespace): [findall] passes over it without a result and goes on with
    the text that follows. *)
Theorem X9_spaced_comma_group_is_skipped ws c rest :
  chan_ok c = true -> tok space ws = true ->
  findall channel_regex (c_before c ++ group_text_spaced ws c ++ rest)
  = findall channel_regex rest.
Proof.
  intros Hok Hw. pose proof (spaced_group_no_match ws c rest Hok Hw) as Hn.
  unfold findall. unfold chan_ok in Hok. split_ok.
  rewrite findall_before by assumption.
  unfold group_text_spaced in *. repeat rewrite <- app_assoc in *.
  change (L "<" ++ ?x) with ("<"%char :: x) in *.
  rewrite (findall_no_match _ _ Hn).
  repeat rewrite app_assoc.
  apply findall_before.
  rewrite !forallb_app.
  repeat match goal with
         | H : tok digit ?w = true |- context [forallb not_lt ?w] =>
             rewrite (digit_not_lt w (tok_forallb _ _ H))
         | H : forallb space ?w = true |- context [forallb not_lt ?w] =>
             rewrite (spaces_not_lt w H)
         | H : tok space ?w = true |- context [forallb not_lt ?w] =>
             rewrite (spaces_not_lt w (tok_forallb _ _ H))
         | H : signed ?w = true |- context [forallb not_lt ?w] =>
             rewrite (signed_not_lt w H)
         end.
  reflexivity.
Qed.

(** The first example group with a blank after its comma, before the
    second example group. *)
Lemma X9_spaced_comma_group_witness :
  findall channel_regex (L " <0:4/-3/30/100, 4/200><1:5/2/28/90,3/180>")
  = findall channel_regex (L "<1:5/2/28/90,3/180>").
Proof.
  apply (X9_spaced_comma_group_is_skipped (L " ")
           (mkChan (L " ") (L "0") [] (L "4") (L "-3") (L "30") (L "100")
                   (L "4") (L "200"))
           (L "<1:5/2/28/90,3/180>")); reflexivity.
Defined.

(** X10: the record does not depend on the identifier that opens the line
    nor on how much whitespace separates the fields: two well-formed lines
    with the same thirteen fields and the same channel segment give the same
    record. *)
Theorem X10_record_ignores_identifier_and_spacing h1 h2 seg :
  line_ok h1 seg = true -> line_ok h2 seg = true ->
  header_record h1 [] = header_record h2 [] ->
  parse_cnu_line (line_of h1 seg) = parse_cnu_line (line_of h2 seg).
Proof.
  intros H1 H2 E. rewrite !parse_line by assumption.
  unfold header_record in *. injection E as -> -> -> -> -> -> -> -> -> -> -> -> ->.
  reflexivity.
Qed.

Lemma X10_record_ignores_witness :
  line_of example_header_padded (segment example_channels [])
  = L "  907:1699999999.123:INFO:moca: handleCnuStats :  45:<2:eth0>,<7,AA:BB:CC:DD:EE:FF>,<1><Rx Good/Bad,Percent   100/  2,  1.96%> blah per channel <0:4/-3/30/100,4/200><1:5/2/28/90,3/180>"
  /\ parse_cnu_line (line_of example_header (segment example_channels []))
     = parse_cnu_line (line_of example_header_padded (segment example_channels [])).
Proof.
  split; [reflexivity|].
  apply X10_record_ignores_identifier_and_spacing; reflexivity.
Defined.

Lemma dropwhile_all f w : forallb f w = true -> dropwhile f w = [].
Proof.
  induction w as [|c w IH]; simpl; [reflexivity|]. intros H.
  apply andb_prop in H. destruct H as [-> H]. auto.
Qed.

Lemma strip_blank w : forallb space w = true -> strip w = [].
Proof.
  intros H. unfold strip, lstrip, rstrip.
  rewrite (dropwhile_all space (rev w)) by (rewrite forallb_rev; assumption).
  reflexivity.
Qed.

(** X11: the device name of the record can be empty although the pattern
    wants at least one character between [:] and [>]: when that text is
    all whitespace the line is accepted and the name is the empty text, so
    the block shows [MoCA Port:  <port> ()]. *)
Theorem X11_blank_device_name_is_empty h seg :
  line_ok h seg = true -> forallb space (h_dev h) = true ->
  exists r,
    parse_cnu_line (line_of h seg) = Some r
    /\ moca_port_dev r = []
    /\ nth 6 (render r) [] = L "MoCA Port:  " ++ h_port h ++ L " ()" ++ newline.
Proof.
  intros Hl Hd. eexists. split; [apply parse_line; assumption|].
  split.
  - cbn [header_record moca_port_dev]. apply strip_blank. assumption.
  - change (nth 6 (render ?r) [])
      with (L "MoCA Port:  " ++ moca_port r ++ L " (" ++ moca_port_dev r
            ++ L ")" ++ newline).
    cbn [header_record moca_port moca_port_dev].
    rewrite strip_blank by assumption. reflexivity.
Qed.

Lemma X11_blank_device_name_witness :
  exists r,
    parse_cnu_line (line_of (set_dev (L " ") example_header)
                            (segment example_channels [])) = Some r
    /\ moca_port_dev r = []
    /\ nth 6 (render r) [] = L "MoCA Port:  2 ()" ++ newline.
Proof.
  apply (X11_blank_device_name_is_empty (set_dev (L " ") example_header)
           (segment example_channels [])); reflexivity.
Defined.

(** X12: the channel segment is all the text that follows the first
    occurrence of the marker.  For a well-formed line the channels of the
    record are the groups [findall] meets in that text, whatever else it
    holds: text that is no group, or the marker once more. *)
Theorem X12_channels_follow_the_first_marker h seg :
  line_ok h seg = true ->
  exists r,
    parse_cnu_line (line_of h seg) = Some r
    /\ channels r = map channel_of (findall channel_regex seg).
Proof.
  intros H. eexists. split; [apply parse_line; assumption|].
  cbn [header_record channels]. rewrite findall_lstrip. reflexivity.
Qed.

(** A group, the marker again, another group: both groups are channels. *)
Lemma X12_channels_follow_witness :
  exists r,
    parse_cnu_line
      (line_of example_header (L " <9:1/1/1/1,1/1> per channel <0:4/-3/30/100,4/200>"))
    = Some r
    /\ map bandIndex (channels r) = [L "9"; L "0"].
Proof.
  destruct (X12_channels_follow_the_first_marker example_header
              (L " <9:1/1/1/1,1/1> per channel <0:4/-3/30/100,4/200>"))
    as (r & Hp & Hc); [reflexivity|].
  exists r. split; [exact Hp|]. rewrite Hc. vm_compute. reflexivity.
Defined.

(* ================================================================== *)
(** * Part IV: which characters of the header a line cannot do without *)

(** ** Runs taken as far as they go *)

Lemma line_lits_literal h seg : line_lits literal h seg = line_of h seg.
Proof. reflexivity. Qed.

Lemma damaged_colon h seg k : k < 6 ->
  line_lits (damaged k 0) h seg = line_with (without k) h seg.
Proof.
  intros Hk. destruct k as [|[|[|[|[|[|k]]]]]]; try lia; reflexivity.
Qed.

Lemma starts_true_tok cls s : starts cls s = true -> tok cls (takewhile cls s) = true.
Proof.
  destruct s as [|c s]; [discriminate|]. simpl. intros H. rewrite H. simpl.
  rewrite H. apply takewhile_all.
Qed.

Lemma starts_tok_true cls w s : tok cls w = true -> starts cls (w ++ s) = true.
Proof. intros H. destruct (tok_cons _ _ H) as (c & w' & -> & Hc & _). exact Hc. Qed.

Lemma run_grp_plus_max cls p cl s :
  blocks cls p -> starts cls s = true ->
  run (grp (plus cls) ++ p) (Caps cl None) s
  = run p (Caps (takewhile cls s :: cl) None) (dropwhile cls s).
Proof.
  intros B H. rewrite <- (take_drop cls s) at 1.
  apply run_grp_plus;
    [assumption | apply starts_true_tok; assumption | apply dropwhile_starts].
Qed.

Lemma run_star_max cls p cl s :
  blocks cls p ->
  run (star cls ++ p) (Caps cl None) s = run p (Caps cl None) (dropwhile cls s).
Proof.
  intros B. rewrite <- (take_drop cls s) at 1.
  apply run_star; [assumption | apply takewhile_all | apply dropwhile_starts].
Qed.

Lemma grp_plus_refuses cls p st s :
  starts cls s = false -> run (grp (plus cls) ++ p) st s = None.
Proof.
  intros H. simpl. unfold rep. destruct s as [|c s]; [reflexivity|].
  simpl in H. rewrite H. reflexivity.
Qed.

Lemma plus_refuses_at cls p st s :
  starts cls s = false -> run (plus cls ++ p) st s = None.
Proof.
  intros H. simpl. unfold rep. destruct s as [|c s]; [reflexivity|].
  simpl in H. rewrite H. reflexivity.
Qed.

Lemma run_lit_refuses m p st s :
  prefixb (L m) s = false -> run (lit m ++ p) st s = None.
Proof. apply run_chars_refuses. Qed.

Lemma prefixb_head d m s : starts (Ascii.eqb d) s = false -> prefixb (d :: m) s = false.
Proof. destruct s as [|c s]; [reflexivity|]. simpl. intros ->. reflexivity. Qed.

Lemma prefixb_same a m s : prefixb (a :: m) (a :: s) = prefixb m s.
Proof. simpl. rewrite Ascii.eqb_refl. reflexivity. Qed.

Lemma prefixb_self m r : prefixb m (m ++ r) = true.
Proof. induction m as [|a m IH]; [reflexivity|]. simpl. rewrite Ascii.eqb_refl. exact IH. Qed.

Lemma disjoint_eqb (cls : ascii -> bool) d : cls d = false -> disjoint cls (Ascii.eqb d).
Proof.
  intros H c Hc. rewrite Ascii.eqb_sym. apply (eqb_outside cls); assumption.
Qed.

Lemma digit_not_gt w : forallb digit w = true -> forallb not_gt w = true.
Proof. apply forallb_weaken. by_cases_on_char. Qed.

Lemma dropwhile_nil_all f a : dropwhile f a = [] -> forallb f a = true.
Proof.
  induction a as [|c a IH]; simpl; [reflexivity|].
  destruct (f c); [exact IH | discriminate].
Qed.

Lemma dropwhile_app_stop f a b c d :
  dropwhile f a = c :: d -> dropwhile f (a ++ b) = (c :: d) ++ b.
Proof.
  induction a as [|x a IH]; simpl; [discriminate|].
  destruct (f x); [exact IH|]. intros H. injection H as <- <-. reflexivity.
Qed.

Lemma prefixb_after_run f d m a R :
  starts (Ascii.eqb d) (dropwhile f a) = false ->
  starts f R = false -> starts (Ascii.eqb d) R = false ->
  prefixb (d :: m) (dropwhile f (a ++ R)) = false.
Proof.
  intros Ha Hf Hd. apply prefixb_head.
  destruct (dropwhile f a) as [|c w] eqn:E.
  - rewrite dropwhile_app_all by (apply dropwhile_nil_all; exact E).
    rewrite dropwhile_id by assumption. assumption.
  - rewrite (dropwhile_app_stop _ _ _ _ _ E). exact Ha.
Qed.

Lemma starts_app_both f a b :
  starts f a = false -> starts f b = false -> starts f (a ++ b) = false.
Proof. destruct a; simpl; trivial. Qed.

Lemma not_tok_nil cls w : forallb cls w = true -> tok cls w = false -> w = [].
Proof. destruct w; [reflexivity|]. simpl. congruence. Qed.

Lemma occurs_eq m s :
  occurs m s = prefixb m s || match s with [] => false | _ :: s' => occurs m s' end.
Proof. destruct s; reflexivity. Qed.

Lemma occurs_app m w r : occurs m (w ++ m ++ r) = true.
Proof.
  induction w as [|c w IH].
  - rewrite occurs_eq. simpl app. rewrite prefixb_self. reflexivity.
  - rewrite occurs_eq. cbn [app]. rewrite IH. apply orb_true_r.
Qed.

(** Without the marker in the text, the end of [line_regex] does not
    match. *)
Lemma tail_refuses st X : occurs marker X = false -> run tail_regex st X = None.
Proof.
  intros H. destruct (run tail_regex st X) as [[st' s']|] eqn:E; [|reflexivity].
  apply run_sound in E. unfold tail_regex in E.
  change (star_lazy dot ++ lit "per channel" ++ ?q)
    with (Rep false false dot :: (map Chr marker ++ q)) in E.
  cbn [consumes] in E. destruct E as (w & t & -> & _ & E).
  assert (exists r, t = marker ++ r) as (r & ->).
  { unfold marker in E. simpl in E.
    repeat match goal with
           | H : exists _, _ |- _ => destruct H
           | H : _ /\ _ |- _ => destruct H
           end.
    subst. eexists. reflexivity. }
  rewrite occurs_app in H. discriminate.
Qed.

Ltac starts_solver :=
  first [ reflexivity
        | assumption
        | eapply starts_tok; [ | eassumption ];
          first [ solve [auto with cls] | apply disjoint_eqb; reflexivity ]
        | eapply starts_run; [ | eassumption | reflexivity ];
          first [ solve [auto with cls] | apply disjoint_eqb; reflexivity ] ].

Ltac prefix_solver :=
  first [ reflexivity
        | cbn [L list_ascii_of_string app];
          rewrite ?prefixb_same; apply prefixb_head; starts_solver ].

Ltac refute :=
  first [ apply run_lit_refuses; prefix_solver
        | apply grp_plus_refuses; starts_solver
        | apply plus_refuses_at; starts_solver ].

Ltac in_not_gt :=
  first [ reflexivity
        | apply tok_forallb; assumption
        | apply digit_not_gt, tok_forallb; assumption ].

Ltac max_step :=
  rewrite run_grp_plus_max
    by (first [ solve [blocked] | apply starts_tok_true; assumption ]);
  rewrite !dropwhile_app_all by in_not_gt;
  rewrite dropwhile_id by reflexivity.

Ltac star_max_step :=
  rewrite run_star_max by (solve [blocked]);
  rewrite !dropwhile_app_all by assumption;
  rewrite dropwhile_id by reflexivity.

Ltac normalise_damage :=
  cbn [damaged Nat.eqb literal];
  repeat match goal with
         | |- context [delete_at ?i (L ?m)] =>
             let t := eval vm_compute in (string_of_list_ascii (delete_at i (L m))) in
             change (delete_at i (L m)) with (L t)
         end;
  change (L "" ++ ?x) with x.

Ltac open_line :=
  unfold parse_cnu_line, re_match, line_regex, line_lits, caps0;
  normalise_damage; repeat forced.

Ltac close_with tac :=
  match goal with
  | |- context [run ?p ?st ?s] =>
      let E := fresh in
      assert (run p st s = None) as E by tac; rewrite E; reflexivity
  end.

Ltac damaged_case :=
  open_line; repeat first [ forced | max_step ]; close_with refute.

(** ** One fixed text damaged *)

Section Damaged.
Variables (h : Header) (seg : str).
Hypothesis Hf : fields_ok h = true.
Hypothesis Hr : rx_spaced h = true.

Ltac prepare :=
  let Hf' := fresh in let Hr' := fresh in
  pose proof Hf as Hf'; pose proof Hr as Hr';
  unfold fields_ok in Hf'; unfold rx_spaced in Hr'; split_ok;
  repeat match goal with
         | H : negb _ = true |- _ => apply negb_true_iff in H
         end;
  assert (tok space (h_sp_bad h) = true) by (apply tok_nonempty; assumption);
  assert (tok space (h_sp_pct h) = true) by (apply tok_nonempty; assumption).

Lemma port_open_needed : parse_cnu_line (line_lits (damaged 6 0) h seg) = None.
Proof. prepare. damaged_case. Qed.

Lemma port_colon_needed : still_needed h seg 7 0 = true ->
  parse_cnu_line (line_lits (damaged 7 0) h seg) = None.
Proof.
  cbn [still_needed]. intros Hc. apply negb_true_iff in Hc. prepare. open_line.
  rewrite run_grp_plus_max
    by (first [ solve [blocked] | apply starts_tok_true; assumption ]).
  rewrite (dropwhile_app_all digit (h_port h)) by (apply tok_forallb; assumption).
  close_with ltac:(apply run_lit_refuses, prefixb_after_run;
                   [assumption | reflexivity | reflexivity]).
Qed.

Lemma dev_close_needed i : i < 3 ->
  parse_cnu_line (line_lits (damaged 8 i) h seg) = None.
Proof. intros Hi. prepare. destruct i as [|[|[|i]]]; try lia; damaged_case. Qed.

Lemma cnu_comma_needed : still_needed h seg 9 0 = true ->
  parse_cnu_line (line_lits (damaged 9 0) h seg) = None.
Proof.
  cbn [still_needed]. intros Hc. apply negb_true_iff in Hc. prepare. open_line.
  rewrite run_grp_plus_max
    by (first [ solve [blocked] | apply starts_tok_true; assumption ]).
  rewrite (dropwhile_app_all digit (h_cnu_id h)) by (apply tok_forallb; assumption).
  close_with ltac:(apply run_lit_refuses, prefixb_after_run;
                   [assumption | reflexivity | reflexivity]).
Qed.

Lemma mac_close_needed i : i < 3 ->
  parse_cnu_line (line_lits (damaged 10 i) h seg) = None.
Proof. intros Hi. prepare. destruct i as [|[|[|i]]]; try lia; damaged_case. Qed.

Lemma source_close_needed : parse_cnu_line (line_lits (damaged 11 0) h seg) = None.
Proof. prepare. damaged_case. Qed.

Lemma rx_tag_needed i : i < 20 ->
  parse_cnu_line (line_lits (damaged 12 i) h seg) = None.
Proof.
  intros Hi. prepare.
  do 20 (destruct i as [|i]; [damaged_case|]). lia.
Qed.

Lemma rx_slash_needed : parse_cnu_line (line_lits (damaged 13 0) h seg) = None.
Proof. prepare. damaged_case. Qed.

Lemma rx_comma_needed : parse_cnu_line (line_lits (damaged 14 0) h seg) = None.
Proof. prepare. damaged_case. Qed.

Lemma rx_percent_needed : parse_cnu_line (line_lits (damaged 15 0) h seg) = None.
Proof. prepare. damaged_case. Qed.

Lemma rx_close_needed : still_needed h seg 15 1 = true ->
  parse_cnu_line (line_lits (damaged 15 1) h seg) = None.
Proof.
  cbn [still_needed]. intros Hc. apply negb_true_iff in Hc. prepare. open_line.
  close_with ltac:(apply run_lit_refuses; cbn [L list_ascii_of_string app];
                   rewrite ?prefixb_same; apply prefixb_head, starts_app_both;
                   [assumption | reflexivity]).
Qed.

Lemma marker_needed i : i < 11 -> still_needed h seg 16 i = true ->
  parse_cnu_line (line_lits (damaged 16 i) h seg) = None.
Proof.
  cbn [still_needed]. intros Hi Hc. apply negb_true_iff in Hc. prepare.
  do 11 (destruct i as [|i];
         [ open_line; close_with ltac:(apply (tail_refuses _ _ Hc)) | ]).
  lia.
Qed.

(** A line that has lost a character of a fixed text it cannot do without
    is rejected. *)
Lemma reject_damaged k i :
  k <= 16 -> i < List.length (literal k) -> still_needed h seg k i = true ->
  parse_cnu_line (line_lits (damaged k i) h seg) = None.
Proof.
  intros Hk Hi Hn.
  destruct k as [|[|[|[|[|[|[|[|[|[|[|[|[|[|[|[|[|k]]]]]]]]]]]]]]]]];
    try lia; vm_compute in Hi;
    try (assert (i = 0) as -> by lia).
  - rewrite damaged_colon by lia. apply reject_without_colon; [assumption | lia].
  - rewrite damaged_colon by lia. apply reject_without_colon; [assumption | lia].
  - rewrite damaged_colon by lia. apply reject_without_colon; [assumption | lia].
  - rewrite damaged_colon by lia. apply reject_without_colon; [assumption | lia].
  - rewrite damaged_colon by lia. apply reject_without_colon; [assumption | lia].
  - rewrite damaged_colon by lia. apply reject_without_colon; [assumption | lia].
  - apply port_open_needed.
  - apply port_colon_needed. assumption.
  - apply dev_close_needed. lia.
  - apply cnu_comma_needed. assumption.
  - apply mac_close_needed. lia.
  - apply source_close_needed.
  - apply rx_tag_needed. lia.
  - apply rx_slash_needed.
  - apply rx_comma_needed.
  - destruct i as [|[|i]]; [apply rx_percent_needed | | lia].
    apply rx_close_needed. assumption.
  - apply marker_needed; [lia | assumption].
Qed.
End Damaged.

(** ** A mandatory slot left empty *)

Ltac slot cls w :=
  let T := fresh "T" in
  destruct (tok cls w) eqn:T;
  [ | let E := fresh in
      assert (w = []) as E by (apply (not_tok_nil cls); assumption);
      unfold parse_cnu_line, re_match, line_regex, line_lits, caps0;
      cbn [literal];
      rewrite E; change ([] ++ ?x) with x;
      repeat first [ forced | star_max_step ];
      close_with refute ].

(** A line in which a field, or one of the three whitespace runs of the Rx
    tag, is empty is rejected. *)
Lemma reject_empty_slot h seg :
  slots_ok h = true -> fields_ok h && rx_spaced h = false ->
  parse_cnu_line (line_lits literal h seg) = None.
Proof.
  unfold slots_ok. intros Hs Hn. split_ok.
  slot digit (h_ident h).
  slot digit_or_dot (h_timestamp h).
  slot word (h_level h).
  slot word (h_module h).
  slot not_space_colon (h_function h).
  slot digit (h_source_line h).
  slot digit (h_port h).
  slot not_gt (h_dev h).
  slot digit (h_cnu_id h).
  slot not_gt (h_mac h).
  slot digit (h_source_type h).
  slot space (h_sp_good h).
  slot digit (h_good h).
  slot space (h_sp_bad h).
  slot digit (h_bad h).
  slot space (h_sp_pct h).
  slot digit_or_dot (h_pct h).
  exfalso. apply andb_false_iff in Hn. destruct Hn as [Hn | Hn].
  - unfold fields_ok in Hn.
    repeat match goal with
           | H : _ = true |- _ => rewrite H in Hn; clear H
           end.
    discriminate.
  - unfold rx_spaced in Hn.
    rewrite (tok_length space (h_sp_bad h)), (tok_length space (h_sp_pct h)) in Hn
      by assumption.
    discriminate.
Qed.

(** ** The record of an accepted line is complete *)

Lemma built_record_shaped h chs :
  fields_ok h = true -> record_shaped (header_record h chs) = true.
Proof.
  unfold fields_ok. intros Hf. split_ok.
  unfold record_shaped, header_record.
  cbn -[tok forallb trimmed strip].
  rewrite !trimmed_strip.
  repeat match goal with
         | H : tok not_gt ?w = true |- context [forallb not_gt (strip ?w)] =>
             rewrite (forallb_strip not_gt w (tok_forallb _ _ H))
         | H : tok _ _ = true |- _ => rewrite H; clear H
         end.
  reflexivity.
Qed.

Lemma found_channels_shaped s :
  forallb channel_shaped (map channel_of (findall channel_regex s)) = true.
Proof.
  apply forallb_forall. intros ch Hin.
  apply in_map_iff in Hin. destruct Hin as (t & <- & Hin).
  destruct (findall_sound _ _ _ Hin) as (c & _ & _ & Hok & -> & _).
  apply chan_ok_shaped. assumption.
Qed.

Lemma accepted_channels_shaped line r :
  parse_cnu_line line = Some r -> forallb channel_shaped (channels r) = true.
Proof.
  unfold parse_cnu_line. intros H.
  destruct (re_match line_regex line) as [[gs rest]|]; [|discriminate].
  injection H as <-. apply found_channels_shaped.
Qed.

(** ** Claim C3 *)

(** C3, as stated, fails: a character of a required token can be removed
    from a matching line and leave a matching line.  The identifier [12] of
    the example line loses its [1] and the line still parses; when the
    marker [per channel] occurs twice, the first occurrence, which is the one
    the match uses, loses its [p] and the line still parses; and three
    delimiters can be replaced by the free text next to them: the colon
    after the port when the device text is [:x], the comma after the CNU id
    when the MAC text is [,AA], the [>] that closes the Rx tag when the text
    after it starts with [>]. *)
Lemma C3_deleting_a_token_character_can_still_match :
  (parse_cnu_line example_line <> None
   /\ firstn 3 example_line = L "12:"
   /\ parse_cnu_line (delete_at 0 example_line) <> None)
  /\ (parse_cnu_line example_marker_twice <> None
      /\ firstn 11 (skipn 118 example_marker_twice) = marker
      /\ firstn 118 example_marker_twice
         = L "12:1699999999.123:INFO:moca:handleCnuStats:45: <2:eth0>,<7,AA:BB:CC:DD:EE:FF>,<1> <Rx Good/Bad,Percent 100/ 2, 1.96%> "
      /\ parse_cnu_line (delete_at 118 example_marker_twice) <> None)
  /\ (parse_cnu_line (line_lits literal (set_dev (L ":x") example_header) []) <> None
      /\ line_lits (damaged 7 0) (set_dev (L ":x") example_header) []
         = L "12:1699999999.123:INFO:moca:handleCnuStats:45: <2:x>,<7,AA:BB:CC:DD:EE:FF>,<1> <Rx Good/Bad,Percent 100/ 2, 1.96%> blah per channel"
      /\ parse_cnu_line (line_lits (damaged 7 0) (set_dev (L ":x") example_header) [])
         <> None)
  /\ (parse_cnu_line (line_lits literal (set_mac (L ",AA") example_header) []) <> None
      /\ line_lits (damaged 9 0) (set_mac (L ",AA") example_header) []
         = L "12:1699999999.123:INFO:moca:handleCnuStats:45: <2:eth0>,<7,AA>,<1> <Rx Good/Bad,Percent 100/ 2, 1.96%> blah per channel"
      /\ parse_cnu_line (line_lits (damaged 9 0) (set_mac (L ",AA") example_header) [])
         <> None)
  /\ (parse_cnu_line (line_lits literal (set_junk (L "> blah ") example_header) [])
      <> None
      /\ line_lits (damaged 15 1) (set_junk (L "> blah ") example_header) []
         = L "12:1699999999.123:INFO:moca:handleCnuStats:45: <2:eth0>,<7,AA:BB:CC:DD:EE:FF>,<1> <Rx Good/Bad,Percent 100/ 2, 1.96%> blah per channel"
      /\ parse_cnu_line (line_lits (damaged 15 1) (set_junk (L "> blah ") example_header) [])
         <> None).
Proof.
  repeat split; try (vm_compute; reflexivity); vm_compute; discriminate.
Qed.

(** C3, amended: all-or-nothing parsing.  For every line [parse_cnu_line]
    returns either nothing, when [line_regex] does not match, or a complete
    record: the line is then a full header, every slot filled with text of
    its class; each of the thirteen fields of the record is the text of its
    slot, well shaped (non-empty, but for the stripped device name and
    MAC); and every channel is well shaped.  A line that matches is rejected
    once it loses one character of the fixed texts of its header: any of the
    six colons (the one after the module field, say), the [<] before the
    port, the [>,<] after the device name and after the MAC, the [>] after
    the source type, any character of [<Rx Good/Bad,Percent], the [/], the
    [,] and the [%] of the Rx tag, and, unless the free text next to it
    stands in for it (see [still_needed]), the colon after the port, the
    comma after the CNU id, the [>] that closes the Rx tag and a character
    of the marker.  A line in which a field or a whitespace run of the Rx
    tag is left empty, as when the only character of a one-character field
    is removed, is rejected too. *)
Theorem C3_all_or_nothing :
  (forall line,
     (parse_cnu_line line = None /\ re_match line_regex line = None)
     \/ (exists h seg r,
           parse_cnu_line line = Some r
           /\ line = line_lits literal h seg
           /\ fields_ok h = true /\ rx_spaced h = true
           /\ r = header_record h (channels r)
           /\ record_shaped r = true
           /\ forallb channel_shaped (channels r) = true))
  /\ (forall h seg k i,
        fields_ok h = true -> rx_spaced h = true ->
        k <= 16 -> i < List.length (literal k) ->
        still_needed h seg k i = true ->
        parse_cnu_line (line_lits (damaged k i) h seg) = None)
  /\ (forall h seg,
        slots_ok h = true -> fields_ok h && rx_spaced h = false ->
        parse_cnu_line (line_lits literal h seg) = None).
Proof.
  split; [|split].
  - intros line. destruct (parse_cnu_line line) as [r|] eqn:E.
    + right. destruct (accepted_is_built _ _ E) as (h & seg & Hl & Hf & Hr & Er).
      exists h, seg, r. rewrite line_lits_literal.
      repeat split; trivial.
      * rewrite Er. apply built_record_shaped. assumption.
      * apply (accepted_channels_shaped line). assumption.
    + left. split; [reflexivity|].
      unfold parse_cnu_line in E.
      destruct (re_match line_regex line) as [[gs rest]|]; [discriminate|reflexivity].
  - intros h seg k i Hf Hr. apply reject_damaged; assumption.
  - exact reject_empty_slot.
Qed.

(** The example line: without the colon after its module field, without
    the second [o] of [Good], and without its one-character port. *)
Lemma C3_all_or_nothing_witness :
  (line_lits (damaged 3 0) example_header (segment example_channels [])
   = L "12:1699999999.123:INFO:mocahandleCnuStats:45: <2:eth0>,<7,AA:BB:CC:DD:EE:FF>,<1> <Rx Good/Bad,Percent 100/ 2, 1.96%> blah per channel <0:4/-3/30/100,4/200><1:5/2/28/90,3/180>"
   /\ parse_cnu_line
        (line_lits (damaged 3 0) example_header (segment example_channels []))
      = None)
  /\ (line_lits (damaged 12 6) example_header (segment example_channels [])
      = L "12:1699999999.123:INFO:moca:handleCnuStats:45: <2:eth0>,<7,AA:BB:CC:DD:EE:FF>,<1> <Rx God/Bad,Percent 100/ 2, 1.96%> blah per channel <0:4/-3/30/100,4/200><1:5/2/28/90,3/180>"
      /\ parse_cnu_line
           (line_lits (damaged 12 6) example_header (segment example_channels []))
         = None)
  /\ (line_lits literal (set_port [] example_header) (segment example_channels [])
      = L "12:1699999999.123:INFO:moca:handleCnuStats:45: <:eth0>,<7,AA:BB:CC:DD:EE:FF>,<1> <Rx Good/Bad,Percent 100/ 2, 1.96%> blah per channel <0:4/-3/30/100,4/200><1:5/2/28/90,3/180>"
      /\ parse_cnu_line
           (line_lits literal (set_port [] example_header)
                      (segment example_channels []))
         = None).
Proof.
  destruct C3_all_or_nothing as (_ & D & E).
  split; [|split]; (split; [reflexivity|]).
  - apply D; try reflexivity; apply Nat.leb_le || apply Nat.ltb_lt; reflexivity.
  - apply D; try reflexivity; apply Nat.leb_le || apply Nat.ltb_lt; reflexivity.
  - apply E; reflexivity.
Defined.
